(** * hdfm: the command-line front end of [interface.py]

    A shallow embedding of [src/interface.py]: the [NRSC5] configuration
    object with [format_cmd], the [UserInterface] option handlers, the
    argument scan of [UserInterface.process] and the [__main__] block.

    Command-line tokens are ASCII strings.  The Python builtins the program
    calls ([int], [float], [str], [str.format] on its five value types) are
    modelled in module [Py] as CPython 3.11 or later has them in its default
    configuration; floats are IEEE binary64 values. *)

From Stdlib Require Import ZArith Lia Bool Ascii String List.
From Stdlib Require Import DecimalString.
From Stdlib Require Import Floats.SpecFloat.
From stdpp Require Import base option list strings gmap.

Local Open Scope string_scope.
Local Open Scope Z_scope.

(** ** Python builtins used by the program *)

Module Py.

(** Exceptions the program can leave unhandled. *)
Inductive exn : Set := IndexError | KeyError | ValueError.

(** What running a piece of code gives: a value, or an exception that
    propagates. *)
Inductive outcome (A : Type) : Type :=
  | Ret (a : A)
  | Raise (e : exn).
Arguments Ret {A} a.
Arguments Raise {A} e.

(** *** Characters and [str.strip] *)

Definition code (c : ascii) : Z := Z.of_nat (nat_of_ascii c).

(** The blanks [int] and [float] strip from an ASCII string: tab, line
    feed, vertical tab, form feed, carriage return and space. *)
Definition is_space (c : ascii) : bool :=
  ((9 <=? code c) && (code c <=? 13)) || (code c =? 32).

Fixpoint lstrip (l : list ascii) : list ascii :=
  match l with
  | c :: l' => if is_space c then lstrip l' else l
  | [] => []
  end.

Definition strip (l : list ascii) : list ascii :=
  rev (lstrip (rev (lstrip l))).

Definition digit_val (c : ascii) : option Z :=
  if (48 <=? code c) && (code c <=? 57) then Some (code c - 48) else None.

Definition is_underscore (c : ascii) : bool := code c =? 95.

(** [digit (["_"] digit)*] after its first digit: accumulated value, number
    of digits read, and the unread rest. *)
Fixpoint digitpart_tail (acc cnt : Z) (l : list ascii) : Z * Z * list ascii :=
  match l with
  | [] => (acc, cnt, [])
  | c :: l' =>
      match digit_val c with
      | Some d => digitpart_tail (10 * acc + d) (cnt + 1) l'
      | None =>
          if is_underscore c then
            match l' with
            | c2 :: l'' =>
                match digit_val c2 with
                | Some d => digitpart_tail (10 * acc + d) (cnt + 1) l''
                | None => (acc, cnt, l)
                end
            | [] => (acc, cnt, l)
            end
          else (acc, cnt, l)
      end
  end.

Definition digitpart (l : list ascii) : option (Z * Z * list ascii) :=
  match l with
  | c :: l' =>
      match digit_val c with
      | Some d => Some (digitpart_tail d 1 l')
      | None => None
      end
  | [] => None
  end.

(** An optional sign: [true] for ["-"]. *)
Definition sign (l : list ascii) : bool * list ascii :=
  match l with
  | c :: l' =>
      if code c =? 45 then (true, l')
      else if code c =? 43 then (false, l')
      else (false, l)
  | [] => (false, [])
  end.

(** The default of [sys.get_int_max_str_digits()]. *)
Definition max_str_digits : Z := 4300.

(** *** [int(s)] for a string [s]: [None] stands for [ValueError], which
    is also what a string of more than [max_str_digits] digits (leading
    zeros counted, underscores not) gives. *)
Definition int (s : string) : option Z :=
  let '(neg, l) := sign (strip (list_ascii_of_string s)) in
  match digitpart l with
  | Some (v, n, []) =>
      if max_str_digits <? n then None else Some (if neg then - v else v)
  | _ => None
  end.

(** *** [str(n)] for an integer [n]. *)
Definition str_int (n : Z) : string :=
  NilZero.string_of_int (Z.to_int n).

(** *** Floats: IEEE binary64 *)

Definition float : Set := spec_float.

Definition prec : Z := 53.
Definition emax : Z := 1024.

(** The float nearest to [n / d] (ties to even), signed by [neg]. *)
Definition round_ratio (neg : bool) (n d : Z) : float :=
  if n =? 0 then S754_zero neg
  else
    let '(q, e, l) := SFdiv_core_binary prec emax n 0 d 0 in
    binary_round_aux prec emax neg q e l.

(** The float nearest to [m * 10^k]. *)
Definition round_decimal (neg : bool) (m k : Z) : float :=
  if 0 <=? k then round_ratio neg (m * 10 ^ k) 1
  else round_ratio neg m (10 ^ (- k)).

(** [float(n)] for an integer [n]. *)
Definition float_of_int (n : Z) : float :=
  round_ratio (n <? 0) (Z.abs n) 1.

Definition lt (x y : float) : bool := SFltb x y.
Definition gt (x y : float) : bool := SFltb y x.

Definition lower (c : ascii) : ascii :=
  if (65 <=? code c) && (code c <=? 90)
  then ascii_of_nat (nat_of_ascii c + 32) else c.

(** [[digitpart] "." digitpart | digitpart ["."]]: mantissa, decimal
    exponent and the unread rest. *)
Definition number (l : list ascii) : option (Z * Z * list ascii) :=
  match digitpart l with
  | Some (i, _, r) =>
      match r with
      | c :: r' =>
          if code c =? 46 then
            match digitpart r' with
            | Some (f, n, r'') => Some (i * 10 ^ n + f, - n, r'')
            | None => Some (i, 0, r')
            end
          else Some (i, 0, r)
      | [] => Some (i, 0, [])
      end
  | None =>
      match l with
      | c :: r' =>
          if code c =? 46 then
            match digitpart r' with
            | Some (f, n, r'') => Some (f, - n, r'')
            | None => None
            end
          else None
      | [] => None
      end
  end.

(** [("e" | "E") [sign] digitpart]. *)
Definition exponent (l : list ascii) : option (Z * list ascii) :=
  match l with
  | c :: r =>
      if code (lower c) =? 101 then
        let '(neg, r1) := sign r in
        match digitpart r1 with
        | Some (x, _, r2) => Some (if neg then - x else x, r2)
        | None => None
        end
      else None
  | [] => None
  end.

Definition floatnumber (l : list ascii) : option (Z * Z) :=
  match number l with
  | Some (m, k, []) => Some (m, k)
  | Some (m, k, r) =>
      match exponent r with
      | Some (x, []) => Some (m, k + x)
      | _ => None
      end
  | None => None
  end.

(** *** [float(s)] for a string [s]: [None] stands for [ValueError]. *)
Definition float_of_str (s : string) : option float :=
  let '(neg, l) := sign (strip (list_ascii_of_string s)) in
  let w := string_of_list_ascii (map lower l) in
  if String.eqb w "nan" then Some S754_nan
  else if String.eqb w "inf" || String.eqb w "infinity"
  then Some (S754_infinity neg)
  else
    match floatnumber l with
    | Some (m, k) => Some (round_decimal neg m k)
    | None => None
    end.

(** *** [str(x)] for a float [x]: the shortest digits that read back as [x] *)

Definition float_eqb (x y : float) : bool :=
  match x, y with
  | S754_zero a, S754_zero b => Bool.eqb a b
  | S754_infinity a, S754_infinity b => Bool.eqb a b
  | S754_nan, S754_nan => true
  | S754_finite a m e, S754_finite b m' e' =>
      Bool.eqb a b && Pos.eqb m m' && (e =? e')
  | _, _ => false
  end.

(** [floor (log10 (n / d))] for positive [n] and [d]. *)
Definition log10_floor (n d : Z) : Z :=
  let est := ((Z.log2 n - Z.log2 d) * 30103) / 100000 in
  let le p := if 0 <=? p then 10 ^ p * d <=? n else d <=? n * 10 ^ (- p) in
  if le (est + 1) then est + 1 else if le est then est else est - 1.

(** The decimal with [nd] significant digits nearest to [n / d] among those
    that read back as [x], as digits and exponent; [None] when neither
    neighbour reads back as [x]. *)
Definition digits_at (x : float) (n d p nd : Z) : option (Z * Z) :=
  let s := p - nd + 1 in
  let '(n', d') := if 0 <=? s then (n, d * 10 ^ s) else (n * 10 ^ (- s), d) in
  let lo := n' / d' in
  let r := n' mod d' in
  let lo_ok := float_eqb (round_decimal false lo s) x in
  let hi_ok := negb (r =? 0) && float_eqb (round_decimal false (lo + 1) s) x in
  let hi_nearer :=
    match 2 * r ?= d' with
    | Gt => true
    | Eq => Z.odd lo
    | Lt => false
    end in
  if lo_ok && hi_ok then Some (if hi_nearer then lo + 1 else lo, s)
  else if lo_ok then Some (lo, s)
  else if hi_ok then Some (lo + 1, s)
  else None.

Fixpoint shortest (x : float) (n d p : Z) (todo : nat) (nd : Z) : Z * Z :=
  match todo with
  | O => (n / d, 0)
  | S todo' =>
      match digits_at x n d p nd with
      | Some r => r
      | None => shortest x n d p todo' (nd + 1)
      end
  end.

Fixpoint drop_zeros (l : list ascii) : list ascii :=
  match l with
  | c :: l' => if code c =? 48 then drop_zeros l' else l
  | [] => []
  end.

Definition zeros (n : Z) : list ascii := repeat "0"%char (Z.to_nat n).

Definition two_digits (n : Z) : list ascii :=
  (if n <? 10 then ["0"%char] else []) ++ list_ascii_of_string (str_int n).

(** The text of a positive finite float from its digits [ds] and the
    position [decpt] of the decimal point. *)
Definition float_text (ds : list ascii) (decpt : Z) : list ascii :=
  let nd := Z.of_nat (length ds) in
  if (decpt <=? -4) || (16 <? decpt) then
    firstn 1 ds
    ++ (if 1 <? nd then "."%char :: skipn 1 ds else [])
    ++ ["e"%char; if decpt - 1 <? 0 then "-"%char else "+"%char]
    ++ two_digits (Z.abs (decpt - 1))
  else if decpt <=? 0 then
    ["0"%char; "."%char] ++ zeros (- decpt) ++ ds
  else if decpt <? nd then
    firstn (Z.to_nat decpt) ds ++ ["."%char] ++ skipn (Z.to_nat decpt) ds
  else ds ++ zeros (decpt - nd) ++ ["."%char; "0"%char].

Definition str_float (x : float) : string :=
  match x with
  | S754_nan => "nan"
  | S754_infinity s => if s then "-inf" else "inf"
  | S754_zero s => if s then "-0.0" else "0.0"
  | S754_finite s m e =>
      let '(n, d) :=
        if 0 <=? e then (Zpos m * 2 ^ e, 1) else (Zpos m, 2 ^ (- e)) in
      let '(dg, k) :=
        shortest (S754_finite false m e) n d (log10_floor n d) 17 1 in
      let all := list_ascii_of_string (str_int dg) in
      let ds := rev (drop_zeros (rev all)) in
      let decpt := Z.of_nat (length all) + k in
      string_of_list_ascii
        ((if s then ["-"%char] else []) ++ float_text ds decpt)
  end.

(** [str(x)] for [x] a float or [None]. *)
Definition str_opt_float (x : option float) : string :=
  match x with
  | Some f => str_float f
  | None => "None"
  end.

Definition str_bool (b : bool) : string := if b then "True" else "False".

End Py.

Import Py.

(** ** The help message *)

Definition NL : string := String (ascii_of_nat 10) EmptyString.

Definition HELP : string :=
  "Usage:  [OPTIONS]  frequency" ++ NL ++
  NL ++
  "Option        Meaning" ++ NL ++
  " -h, --help    Show this message" ++ NL ++
  " -c <channel>  HDFM channel, for stations with subchannels (default = 1)" ++ NL ++
  " -p <ppm>      PPM error correction (default = 0)" ++ NL ++
  " -s <dir>      Directory to do_save weather and traffic images to (default = none)" ++ NL ++
  " -l <1-3>      Log level output from nrsc5 (default = 3, only debug info)" ++ NL ++
  " -a <null>     Display album/station art" ++ NL.

(** ** NRSC5 management *)

Module NRSC5.

Record t : Type := mk {
  channel : Z;
  ppm : Z;
  log : Z;
  freq : option float;
  dump_dir : string;
  cmd_args : option (list string)
}.

Definition set_channel (v : Z) (self : t) : t :=
  mk v (ppm self) (log self) (freq self) (dump_dir self) (cmd_args self).
Definition set_ppm (v : Z) (self : t) : t :=
  mk (channel self) v (log self) (freq self) (dump_dir self) (cmd_args self).
Definition set_log (v : Z) (self : t) : t :=
  mk (channel self) (ppm self) v (freq self) (dump_dir self) (cmd_args self).
Definition set_freq (v : option float) (self : t) : t :=
  mk (channel self) (ppm self) (log self) v (dump_dir self) (cmd_args self).
Definition set_cmd_args (v : option (list string)) (self : t) : t :=
  mk (channel self) (ppm self) (log self) (freq self) (dump_dir self) v.

(** [__init__]; [DUMP] is the constant imported from the package. *)
Definition __init__ (DUMP : string) : t :=
  mk 0 0 3 None DUMP None.

(** Format command/argument list. *)
Definition format_cmd (self : t) : t :=
  set_cmd_args
    (Some [ "nrsc5";
            "-l";
            str_int (log self);
            "-p";
            str_int (ppm self);
            "--dump-aas-files";
            dump_dir self;
            str_opt_float (freq self);
            str_int (channel self) ]%string)
    self.

(** [run]: format the command, then [subprocess.call] it.  The second
    component is the argument vector the call receives; calling with
    [None] is a [TypeError] that [format_cmd] rules out. *)
Definition run (self : t) : t * option (list string) :=
  let self := format_cmd self in
  (self, cmd_args self).

End NRSC5.

(** ** User interface management (CLI) *)

Module UserInterface.

(** The attributes of a [UserInterface] object.  [nrsc5] is the one
    [NRSC5] object the entry point also holds: writes through
    [self.nrsc5] are what the entry point reads back. *)
Record t : Type := mk {
  nrsc5 : NRSC5.t;
  art : bool;
  save_dir : string;
  do_save : bool
}.

(** The object together with what has been printed so far. *)
Record world : Type := World {
  self : t;
  stdout : list string
}.

Definition HALT : Z := 1.
Definition SUCCESS : Z := 0.

Definition print (line : string) (w : world) : world :=
  World (self w) (stdout w ++ [line]).

Definition update_nrsc5 (f : NRSC5.t -> NRSC5.t) (w : world) : world :=
  World (mk (f (nrsc5 (self w))) (art (self w)) (save_dir (self w))
            (do_save (self w)))
        (stdout w).

Definition set_art (v : bool) (w : world) : world :=
  World (mk (nrsc5 (self w)) v (save_dir (self w)) (do_save (self w)))
        (stdout w).
Definition set_save_dir (v : string) (w : world) : world :=
  World (mk (nrsc5 (self w)) (art (self w)) v (do_save (self w)))
        (stdout w).
Definition set_do_save (v : bool) (w : world) : world :=
  World (mk (nrsc5 (self w)) (art (self w)) (save_dir (self w)) v)
        (stdout w).

(** A bound method taking one string. *)
Abbreviation handler := (string -> world -> outcome bool * world) (only parsing).

(** Print help. *)
Definition help (w : world) : world := print HELP w.

(** Determine whether a string represents an integer. *)
Definition repr_int (val : string) : bool :=
  match int val with
  | Some _ => true
  | None => false
  end.

(** Determine whether a string represents a float. *)
Definition repr_float (val : string) : bool :=
  match float_of_str val with
  | Some _ => true
  | None => false
  end.

(** Add channel argument to NRSC5 args. *)
Definition channel : handler := fun arg w =>
  if negb (repr_int arg) then
    (Ret false, print "Error: Invalid channel (0 - 3)" w)
  else
    match int arg with
    | None => (Raise ValueError, w)
    | Some channel =>
        if (channel <? 0) || (channel >? 3) then
          (Ret false, print "Error: Invalid channel (0 - 3)" w)
        else (Ret true, update_nrsc5 (NRSC5.set_channel channel) w)
    end.

(** Process frequency. *)
Definition frequency : handler := fun arg w =>
  if negb (repr_float arg) then
    (Ret false, print "Error: Invalid frequency" w)
  else
    match float_of_str arg with
    | None => (Raise ValueError, w)
    | Some freq =>
        if lt freq (float_of_int 88) || gt freq (float_of_int 108) then
          (Ret false, print "Error: Frequency out of range (88.0 - 108.0)" w)
        else (Ret true, update_nrsc5 (NRSC5.set_freq (Some freq)) w)
    end.

(** Handle ppm argument. *)
Definition ppm : handler := fun arg w =>
  if negb (repr_int arg) then
    (Ret false, print "Error: Invalid PPM argument" w)
  else
    match int arg with
    | None => (Raise ValueError, w)
    | Some v => (Ret true, update_nrsc5 (NRSC5.set_ppm v) w)
    end.

(** Handle log level arg. *)
Definition log : handler := fun arg w =>
  if negb (repr_int arg) then
    (Ret false, print "Error: Invalid log level (1 - 3)" w)
  else
    match int arg with
    | None => (Raise ValueError, w)
    | Some level =>
        if (level <? 1) || (level >? 3) then
          (Ret false, print "Error: Invalid log level (1 - 3)" w)
        else (Ret true, update_nrsc5 (NRSC5.set_log level) w)
    end.

(** Set whether or not album art should be saved. *)
Definition art_set : handler := fun arg w =>
  (Ret true, set_art true w).

Section Filesystem.

(** [os.path.isdir] on the file system the program runs on. *)
Variable isdir : string -> bool.

(** Set save directory. *)
Definition save_dir_set : handler := fun arg w =>
  if negb (isdir arg) then
    (Ret false, print "Error: Invalid directory" w)
  else (Ret true, set_do_save true (set_save_dir arg w)).

(** Operations for each command line option. *)
Definition option_map : gmap string handler :=
  <["-c" := channel]>
    (<["-p" := ppm]>
      (<["-l" := log]>
        (<["-a" := art_set]>
          (<["-s" := save_dir_set]> ∅)))).

(** One turn of the loop [for i in range(length)] of [process]: [Ret None]
    goes on to the next [i], [Ret (Some rc)] is [return rc]. *)
Definition scan_step (args : list string) (i : nat) (w : world)
  : outcome (option Z) * world :=
  let length := Z.of_nat (length args) in
  match args !! i with
  | None => (Raise IndexError, w)
  | Some tok =>
      match tok with
      | EmptyString => (Raise IndexError, w)
      | String c _ =>
          if negb (Ascii.eqb c "-") then (Ret None, w)
          else if Z.of_nat i <? length - 1 then
            match option_map !! tok with
            | None => (Raise KeyError, w)
            | Some h =>
                match args !! (i + 1)%nat with
                | None => (Raise IndexError, w)
                | Some arg =>
                    match h arg w with
                    | (Ret rc, w') =>
                        if negb rc then (Ret (Some HALT), w')
                        else (Ret None, w')
                    | (Raise e, w') => (Raise e, w')
                    end
                end
            end
          else (Ret None, w)
      end
  end.

(** The loop over the indices [range]. *)
Fixpoint scan (args : list string) (range : list nat) (w : world)
  : outcome (option Z) * world :=
  match range with
  | [] => (Ret None, w)
  | i :: range' =>
      match scan_step args i w with
      | (Ret None, w') => scan args range' w'
      | r => r
      end
  end.

(** Process arguments inputted to the main script. *)
Definition process (args : list string) (w : world) : outcome Z * world :=
  if bool_decide ("-h" ∈ args) || bool_decide ("--help" ∈ args) then
    (Ret HALT, help w)
  else if Z.of_nat (length args) =? 1 then
    (Ret HALT, print "Error: No frequency specified" w)
  else
    match last args with
    | None => (Raise IndexError, w)
    | Some tok =>
        match frequency tok w with
        | (Raise e, w') => (Raise e, w')
        | (Ret rc, w') =>
            if negb rc then (Ret HALT, w')
            else
              match scan args (seq 0 (length args)) w' with
              | (Ret (Some rc), w'') => (Ret rc, w'')
              | (Ret None, w'') => (Ret SUCCESS, w'')
              | (Raise e, w'') => (Raise e, w'')
              end
        end
    end.

End Filesystem.

(** [__init__]; [SAVES] is the constant imported from the package. *)
Definition __init__ (SAVES : string) (nrsc5 : NRSC5.t) : t :=
  mk nrsc5 false SAVES false.

End UserInterface.

(** ** The entry point *)

Section Main.

(** The package constants [DUMP] and [SAVES] and the file system. *)
Variables DUMP SAVES : string.
Variable isdir : string -> bool.

(** What one run of the program leaves behind: the objects, the printed
    lines, and the argument vector handed to [subprocess.call] by the
    started process, if [start] was reached. *)
Record trace : Type := Trace {
  final : UserInterface.world;
  launched : option (list string)
}.

Definition quote (s : string) : string := "'" ++ s ++ "'".

(** [str] of [cmd_args]: [None] or a list of strings (strings holding
    quotes or backslashes, which [repr] escapes, are not told apart). *)
Definition str_cmd_args (x : option (list string)) : string :=
  match x with
  | None => "None"
  | Some l => "[" ++ String.concat ", " (map quote l) ++ "]"
  end.

Definition nrsc5_args (n : NRSC5.t) : string :=
  "NRSC5: " ++ str_int (NRSC5.channel n) ++ ", " ++ str_int (NRSC5.ppm n)
  ++ ", " ++ str_int (NRSC5.log n) ++ ", " ++ str_opt_float (NRSC5.freq n)
  ++ "; " ++ str_cmd_args (NRSC5.cmd_args n).

Definition ui_args (ui : UserInterface.t) : string :=
  "UI: " ++ str_bool (UserInterface.art ui) ++ ", "
  ++ UserInterface.save_dir ui ++ ", "
  ++ str_bool (UserInterface.do_save ui).

(** The state in which [ui.process(sys.argv)] starts. *)
Definition initial : UserInterface.world :=
  UserInterface.World
    (UserInterface.__init__ SAVES (NRSC5.__init__ DUMP)) [].

(** The [__main__] block.  The value of [ui.process(sys.argv)] is
    dropped; an exception it raises ends the program there. *)
Definition main (argv : list string) : outcome unit * trace :=
  match UserInterface.process isdir argv initial with
  | (Raise e, w) => (Raise e, Trace w None)
  | (Ret _, w) =>
      let w := UserInterface.print
                 (nrsc5_args (UserInterface.nrsc5 (UserInterface.self w))) w in
      let w := UserInterface.print (ui_args (UserInterface.self w)) w in
      let w := UserInterface.update_nrsc5 NRSC5.format_cmd w in
      let '(_, cmd) := NRSC5.run (UserInterface.nrsc5 (UserInterface.self w)) in
      (Ret tt, Trace w cmd)
  end.

End Main.

Import UserInterface.

(** ** Sample surroundings for closed examples *)

Module Sample.

Definition DUMP : string := "/var/hdfm/dump".
Definition SAVES : string := "/var/hdfm/saves".

(** A file system whose only directory is [/tmp]. *)
Definition isdir (path : string) : bool := String.eqb path "/tmp".

Definition start : world := initial DUMP SAVES.

End Sample.

(** ** Vocabulary of the claims about [process] *)

(** A help flag is among the tokens. *)
Definition has_help (args : list string) : bool :=
  bool_decide ("-h" ∈ args) || bool_decide ("--help" ∈ args).

(** The token begins with ["-"]. *)
Definition dashed (tok : string) : bool :=
  match tok with
  | String c _ => Ascii.eqb c "-"
  | EmptyString => false
  end.

(** The five mapped flags. *)
Definition flags : list string := ["-c"; "-p"; "-l"; "-a"; "-s"].

(** A token the scan passes without an exception: not empty, and one of
    the mapped flags if it begins with ["-"]. *)
Definition token_ok (tok : string) : bool :=
  match tok with
  | EmptyString => false
  | String c _ => negb (Ascii.eqb c "-") || bool_decide (tok ∈ flags)
  end.

(** Every token but the last is [token_ok]. *)
Definition scan_safe (args : list string) : bool :=
  forallb token_ok (removelast args).

(** The order of checks as the specification words it: the mapped flags
    that are not the last token, left to right, each with the token that
    follows it. *)
Fixpoint flag_checks (isdir : string -> bool) (toks : list string)
  : list (handler * string) :=
  match toks with
  | [] => []
  | tok :: rest =>
      match rest with
      | arg :: _ =>
          if dashed tok then
            match option_map isdir !! tok with
            | Some h => [(h, arg)]
            | None => []
            end
          else []
      | [] => []
      end ++ flag_checks isdir rest
  end.

(** Run the checks in order and stop at the first one that fails: [true]
    when none fails. *)
Fixpoint first_failure (checks : list (handler * string)) (w : world)
  : bool * world :=
  match checks with
  | [] => (true, w)
  | (h, arg) :: rest =>
      match h arg w with
      | (Ret true, w') => first_failure rest w'
      | (_, w') => (false, w')
      end
  end.

(** A token that is not empty and does not begin with ["-"]. *)
Definition plain (tok : string) : bool :=
  match tok with
  | EmptyString => false
  | String c _ => negb (Ascii.eqb c "-")
  end.

(** 95.5 as a binary64 value: [6720215068966912 * 2^-46]. *)
Definition f95_5 : float := S754_finite false 6720215068966912 (-46).

(** * Properties *)

Local Open Scope list_scope.

(** ** The handlers *)

Lemma repr_int_true (val : string) :
  repr_int val = true <-> exists n, int val = Some n.
Proof.
  unfold repr_int. destruct (int val) as [n|]; split.
  - intros _. now exists n.
  - reflexivity.
  - discriminate.
  - intros [n Hn]. discriminate.
Qed.

(** [channel] as one case analysis on [int(arg)]; the second [int(arg)]
    cannot raise. *)
Lemma channel_cases (arg : string) (w : world) :
  channel arg w =
  match int arg with
  | Some c =>
      if (0 <=? c) && (c <=? 3)
      then (Ret true, update_nrsc5 (NRSC5.set_channel c) w)
      else (Ret false, print "Error: Invalid channel (0 - 3)" w)
  | None => (Ret false, print "Error: Invalid channel (0 - 3)" w)
  end.
Proof.
  unfold channel, repr_int.
  destruct (int arg) as [c|]; simpl; [|reflexivity].
  destruct (Z.ltb_spec c 0), (Z.gtb_spec c 3),
    (Z.leb_spec 0 c), (Z.leb_spec c 3); simpl; try reflexivity; lia.
Qed.

Lemma log_cases (arg : string) (w : world) :
  log arg w =
  match int arg with
  | Some l =>
      if (1 <=? l) && (l <=? 3)
      then (Ret true, update_nrsc5 (NRSC5.set_log l) w)
      else (Ret false, print "Error: Invalid log level (1 - 3)" w)
  | None => (Ret false, print "Error: Invalid log level (1 - 3)" w)
  end.
Proof.
  unfold log, repr_int.
  destruct (int arg) as [l|]; simpl; [|reflexivity].
  destruct (Z.ltb_spec l 1), (Z.gtb_spec l 3),
    (Z.leb_spec 1 l), (Z.leb_spec l 3); simpl; try reflexivity; lia.
Qed.

Lemma ppm_cases (arg : string) (w : world) :
  ppm arg w =
  match int arg with
  | Some v => (Ret true, update_nrsc5 (NRSC5.set_ppm v) w)
  | None => (Ret false, print "Error: Invalid PPM argument" w)
  end.
Proof.
  unfold ppm, repr_int. now destruct (int arg).
Qed.

Lemma frequency_cases (arg : string) (w : world) :
  frequency arg w =
  match float_of_str arg with
  | Some f =>
      if lt f (float_of_int 88) || gt f (float_of_int 108)
      then (Ret false,
            print "Error: Frequency out of range (88.0 - 108.0)" w)
      else (Ret true, update_nrsc5 (NRSC5.set_freq (Some f)) w)
  | None => (Ret false, print "Error: Invalid frequency" w)
  end.
Proof.
  unfold frequency, repr_float. now destruct (float_of_str arg).
Qed.

(** No handler lets an exception out. *)
Lemma frequency_returns (arg : string) (w : world) :
  exists b w', frequency arg w = (Ret b, w').
Proof.
  rewrite frequency_cases.
  destruct (float_of_str arg) as [f|]; [|eauto].
  destruct (lt f _ || gt f _); eauto.
Qed.

Lemma handlers_return (isdir : string -> bool) (flag : string) (h : handler) :
  option_map isdir !! flag = Some h ->
  forall arg w, exists b w', h arg w = (Ret b, w').
Proof.
  unfold option_map. intros H arg w.
  repeat (apply lookup_insert_Some in H as [[_ <-]|[_ H]]);
    [ rewrite channel_cases | rewrite ppm_cases | rewrite log_cases
    | unfold art_set | unfold save_dir_set | ].
  - destruct (int arg) as [c|]; [destruct (_ && _)|]; eauto.
  - destruct (int arg); eauto.
  - destruct (int arg) as [c|]; [destruct (_ && _)|]; eauto.
  - eauto.
  - destruct (negb (isdir arg)); eauto.
  - rewrite lookup_empty in H. discriminate.
Qed.

(** The empty string is no frequency. *)
Lemma frequency_nonempty (tok : string) (w w' : world) :
  frequency tok w = (Ret true, w') -> tok <> "".
Proof.
  intros H ->. rewrite frequency_cases in H. vm_compute in H. discriminate.
Qed.

Lemma spec_float_eq_nan (f : float) : f = S754_nan \/ f <> S754_nan.
Proof.
  destruct f; (now left) || (right; discriminate).
Qed.

(** Comparing two floats the other way round. *)
Lemma SFcompare_swap (f g : float) :
  SFcompare g f =
  match SFcompare f g with
  | Some c => Some (CompOpp c)
  | None => None
  end.
Proof.
  destruct f as [s|s| |s m e], g as [s'|s'| |s' m' e']; simpl;
    try reflexivity; try (destruct s; reflexivity);
    try (destruct s'; reflexivity); try (destruct s, s'; reflexivity).
  destruct s, s'; try reflexivity;
    rewrite (Z.compare_antisym e' e);
    destruct (e' ?= e); simpl; try reflexivity;
    rewrite (Pos.compare_cont_antisym m m' Eq); simpl;
    destruct (Pos.compare_cont Eq m' m); reflexivity.
Qed.

(** Off not-a-number, [f < g] is false exactly when [g <= f]. *)
Lemma lt_false_leb (f g : float) :
  f <> S754_nan -> g <> S754_nan ->
  lt f g = false <-> SFleb g f = true.
Proof.
  intros Hf Hg. unfold lt, SFltb, SFleb. rewrite (SFcompare_swap f g).
  destruct (SFcompare f g) as [[| |]|] eqn:E; simpl;
    try (split; [reflexivity + discriminate | reflexivity + discriminate]).
  destruct f, g; simpl in E; congruence.
Qed.

(** The frequency check succeeds exactly on the tokens [float] reads as
    not-a-number or as a float between 88 and 108. *)
Lemma frequency_succeeds_iff (arg : string) (w : world) :
  fst (frequency arg w) = Ret true <->
  exists f, float_of_str arg = Some f /\
            (f = S754_nan \/
             (SFleb (float_of_int 88) f = true /\
              SFleb f (float_of_int 108) = true)).
Proof.
  rewrite frequency_cases.
  destruct (float_of_str arg) as [f|]; simpl.
  - destruct (spec_float_eq_nan f) as [->|Hf].
    + split; [intros _; eauto | reflexivity].
    + pose proof (lt_false_leb f (float_of_int 88) Hf
                    ltac:(vm_compute; discriminate))
        as H88.
      pose proof (lt_false_leb (float_of_int 108) f
                    ltac:(vm_compute; discriminate) Hf)
        as H108.
      unfold gt, lt in *.
      destruct (SFltb f (float_of_int 88)) eqn:E1;
        destruct (SFltb (float_of_int 108) f) eqn:E2; simpl.
      * split; [discriminate|].
        intros (f' & [= <-] & [->|[H _]]); [congruence|].
        apply H88 in H. congruence.
      * split; [discriminate|].
        intros (f' & [= <-] & [->|[H _]]); [congruence|].
        apply H88 in H. congruence.
      * split; [discriminate|].
        intros (f' & [= <-] & [->|[_ H]]); [congruence|].
        apply H108 in H. congruence.
      * split; [|reflexivity].
        intros _. exists f. split; [reflexivity|]. right.
        split; [now apply H88 | now apply H108].
  - split; [discriminate|]. intros (f & Hf & _). discriminate.
Qed.

(** ** The scan *)

Section Scan.

Variable isdir : string -> bool.

Lemma option_map_flags (tok : string) :
  tok ∈ flags -> exists h, option_map isdir !! tok = Some h.
Proof.
  unfold flags. intros H.
  repeat (apply elem_of_cons in H as [->|H]); try (eexists; reflexivity).
  now apply elem_of_nil in H.
Qed.

Lemma option_map_other (tok : string) :
  tok ∉ flags -> option_map isdir !! tok = None.
Proof.
  unfold flags, option_map. intros H.
  repeat (rewrite lookup_insert_ne; [|intros <-; apply H; set_solver]).
  apply lookup_empty.
Qed.

(** Running the loop over two stretches of indices. *)
Lemma scan_app (args : list string) (r1 r2 : list nat) (w : world) :
  scan isdir args (r1 ++ r2)%list w =
  match scan isdir args r1 w with
  | (Ret None, w') => scan isdir args r2 w'
  | r => r
  end.
Proof.
  revert w. induction r1 as [|i r1 IH]; intros w; simpl; [reflexivity|].
  destruct (scan_step isdir args i w) as [[[rc|]|e] w']; auto.
Qed.

(** The loop stops at the first turn that does not go on. *)
Lemma scan_stops_at (args : list string) (i : nat) (w w2 w3 : world)
    (r : outcome (option Z)) :
  (i < length args)%nat ->
  scan isdir args (seq 0 i) w = (Ret None, w2) ->
  scan_step isdir args i w2 = (r, w3) ->
  r <> Ret None ->
  scan isdir args (seq 0 (length args)) w = (r, w3).
Proof.
  intros Hi Hpre Hstep Hr.
  replace (length args) with (i + S (length args - S i))%nat by lia.
  rewrite seq_app, scan_app, Hpre. simpl. rewrite Hstep.
  destruct r as [[rc|]|e]; congruence.
Qed.

(** The turn of the loop at a token that is not the last one and names a
    handler. *)
Lemma scan_step_flag (args : list string) (i : nat) (tok arg : string)
    (h : handler) (w : world) :
  args !! i = Some tok -> args !! (i + 1)%nat = Some arg ->
  dashed tok = true -> option_map isdir !! tok = Some h ->
  scan_step isdir args i w =
  match h arg w with
  | (Ret rc, w') => if negb rc then (Ret (Some HALT), w') else (Ret None, w')
  | (Raise e, w') => (Raise e, w')
  end.
Proof.
  intros Hi Hi1 Hd Hh. unfold scan_step. rewrite Hi.
  destruct tok as [|c s]; [discriminate|]. simpl in Hd.
  cbv beta iota zeta. rewrite Hd.
  cbn [negb]. pose proof (lookup_lt_Some _ _ _ Hi1) as Hlt.
  destruct (Z.ltb_spec (Z.of_nat i) (Z.of_nat (length args) - 1)); [|lia].
  rewrite Hh, Hi1. reflexivity.
Qed.

(** The turn of the loop at a token that is not the last one, begins with
    a dash and names no handler. *)
Lemma scan_step_unmapped (args : list string) (i : nat) (tok : string)
    (w : world) :
  args !! i = Some tok -> (i < length args - 1)%nat ->
  dashed tok = true -> tok ∉ flags ->
  scan_step isdir args i w = (Raise KeyError, w).
Proof.
  intros Hi Hlt Hd Hnot. unfold scan_step. rewrite Hi.
  destruct tok as [|c s]; [discriminate|]. simpl in Hd.
  cbv beta iota zeta. rewrite Hd. cbn [negb].
  destruct (Z.ltb_spec (Z.of_nat i) (Z.of_nat (length args) - 1)); [|lia].
  now rewrite (option_map_other _ Hnot).
Qed.

(** Along a stretch of tokens that are well formed for the scan, the loop
    is the run of the flag checks up to the first failure. *)
Lemma scan_first_failure (args : list string) :
  forall (toks pre : list string) (w : world),
    args = (pre ++ toks)%list ->
    forallb token_ok (removelast toks) = true ->
    (forall t, last toks = Some t -> t <> "") ->
    scan isdir args (seq (length pre) (length toks)) w =
    let '(ok, w') := first_failure (flag_checks isdir toks) w in
    (Ret (if ok then None else Some HALT), w').
Proof.
  intros toks. induction toks as [|tok rest IH]; intros pre w Hargs Hok Hlast;
    [reflexivity|].
  assert (Hi : args !! length pre = Some tok)
    by (subst args; apply list_lookup_middle; reflexivity).
  assert (Hnext : args = ((pre ++ [tok]) ++ rest)%list)
    by (now rewrite <- app_assoc).
  assert (Hlen : length (pre ++ [tok]) = S (length pre))
    by (rewrite length_app; simpl; lia).
  cbn [length seq scan].
  destruct rest as [|arg rest'].
  - (* the last token *)
    assert (Hne : tok <> "") by (apply Hlast; reflexivity).
    unfold scan_step. rewrite Hi.
    destruct tok as [|c s]; [congruence|].
    assert (length args = S (length pre))
      by (subst args; rewrite length_app; simpl; lia).
    destruct (Z.ltb_spec (Z.of_nat (length pre)) (Z.of_nat (length args) - 1));
      [lia|].
    simpl. destruct (negb (Ascii.eqb c "-")); reflexivity.
  - assert (Htok : token_ok tok = true /\
                   forallb token_ok (removelast (arg :: rest')) = true)
      by (simpl in Hok; apply andb_prop in Hok; exact Hok).
    destruct Htok as [Htok Hok'].
    assert (Hlast' : forall t, last (arg :: rest') = Some t -> t <> "")
      by (intros t Ht; apply Hlast; rewrite last_cons, Ht; reflexivity).
    specialize (IH (pre ++ [tok]) ). rewrite Hlen in IH.
    destruct (dashed tok) eqn:Hd.
    + assert (Hin : tok ∈ flags).
      { destruct tok as [|c s]; [discriminate|]. simpl in Hd, Htok.
        rewrite Hd in Htok. simpl in Htok.
        now apply bool_decide_eq_true in Htok. }
      destruct (option_map_flags tok Hin) as [h Hh].
      assert (Hi1 : args !! (length pre + 1)%nat = Some arg).
      { rewrite Hnext, Nat.add_1_r, <- Hlen.
        apply list_lookup_middle. reflexivity. }
      rewrite (scan_step_flag args (length pre) tok arg h w Hi Hi1 Hd Hh).
      cbn [flag_checks]. rewrite Hd, Hh. cbn [app first_failure].
      destruct (handlers_return isdir tok h Hh arg w) as (b & w' & Hrun).
      rewrite Hrun. destruct b; simpl.
      * apply IH; assumption.
      * reflexivity.
    + unfold scan_step. rewrite Hi.
      destruct tok as [|c s]; [discriminate|]. simpl in Hd. rewrite Hd.
      cbn [negb flag_checks dashed]. rewrite Hd. cbn [app].
      apply IH; assumption.
Qed.

(** Handlers never clear [art]. *)
Lemma handlers_keep_art (flag : string) (h : handler) (arg : string)
    (w : world) :
  option_map isdir !! flag = Some h ->
  art (self w) = true -> art (self (snd (h arg w))) = true.
Proof.
  unfold option_map. intros H Hart.
  repeat (apply lookup_insert_Some in H as [[_ <-]|[_ H]]);
    [ rewrite channel_cases | rewrite ppm_cases | rewrite log_cases
    | unfold art_set | unfold save_dir_set | ].
  - destruct (int arg) as [c|]; [destruct (_ && _)|]; assumption.
  - destruct (int arg); assumption.
  - destruct (int arg) as [c|]; [destruct (_ && _)|]; assumption.
  - reflexivity.
  - destruct (negb (isdir arg)); assumption.
  - rewrite lookup_empty in H. discriminate.
Qed.

Lemma scan_step_keeps_art (args : list string) (i : nat) (w : world) :
  art (self w) = true ->
  art (self (snd (scan_step isdir args i w))) = true.
Proof.
  intros Hart. unfold scan_step.
  destruct (args !! i) as [[|c s]|]; try assumption.
  destruct (negb (Ascii.eqb c "-")); [assumption|].
  destruct (_ <? _); [|assumption].
  destruct (option_map isdir !! String c s) as [h|] eqn:Hh; [|assumption].
  destruct (args !! (i + 1)%nat) as [arg|]; [|assumption].
  pose proof (handlers_keep_art _ h arg w Hh Hart) as Hk.
  destruct (h arg w) as [[rc|e] w']; [destruct (negb rc)|]; exact Hk.
Qed.

Lemma scan_keeps_art (args : list string) (range : list nat) :
  forall w, art (self w) = true ->
            art (self (snd (scan isdir args range w))) = true.
Proof.
  induction range as [|i range IH]; intros w Hart; [assumption|].
  simpl. pose proof (scan_step_keeps_art args i w Hart) as Hk.
  destruct (scan_step isdir args i w) as [[[rc|]|e] w']; auto.
Qed.

End Scan.

(** C7: the [-c] handler succeeds exactly on the strings that [int] reads
    as an integer [c] with [0 <= c <= 3]; on success the configuration's
    channel becomes [c] (nothing else changes), and otherwise the handler
    prints the line with "Invalid channel (0 - 3)" and reports failure. *)
Theorem channel_accepts_0_to_3 (arg : string) (w : world) :
  (fst (channel arg w) = Ret true <->
   exists c, int arg = Some c /\ 0 <= c <= 3) /\
  (forall c, int arg = Some c -> 0 <= c <= 3 ->
     channel arg w = (Ret true, update_nrsc5 (NRSC5.set_channel c) w) /\
     NRSC5.channel (nrsc5 (self (snd (channel arg w)))) = c) /\
  (fst (channel arg w) <> Ret true ->
     channel arg w = (Ret false, print "Error: Invalid channel (0 - 3)" w)).
Proof.
  rewrite channel_cases.
  destruct (int arg) as [c|] eqn:Hint.
  - destruct (Z.leb_spec 0 c) as [H0|H0], (Z.leb_spec c 3) as [H3|H3];
      simpl; (split; [split|split]);
      try (intros [c' [[= <-] ?]]); try (intros c' [= <-] ?);
      try lia; try discriminate; try tauto; eauto.
  - simpl. split; [split|split]; try discriminate; try tauto.
    intros [c [? _]]. discriminate.
Qed.

Lemma channel_accepts_0_to_3_witness :
  int "2" = Some 2 /\ 0 <= 2 <= 3 /\
  channel "2" Sample.start =
    (Ret true, update_nrsc5 (NRSC5.set_channel 2) Sample.start).
Proof.
  split; [reflexivity|]. split; [lia|].
  apply (proj1 (proj2 (channel_accepts_0_to_3 "2" Sample.start)) 2);
    [reflexivity | lia].
Defined.

(** C8: the [-s] handler succeeds exactly when its argument names an
    existing directory; on success [do_save] is true and [save_dir] is the
    argument string itself, and on failure it prints "Invalid directory",
    reports failure and leaves both fields as they were. *)
Theorem save_dir_set_accepts_directories
    (isdir : string -> bool) (arg : string) (w : world) :
  (fst (save_dir_set isdir arg w) = Ret true <-> isdir arg = true) /\
  (isdir arg = true ->
     save_dir_set isdir arg w = (Ret true, set_do_save true (set_save_dir arg w)) /\
     do_save (self (snd (save_dir_set isdir arg w))) = true /\
     save_dir (self (snd (save_dir_set isdir arg w))) = arg) /\
  (isdir arg = false ->
     save_dir_set isdir arg w = (Ret false, print "Error: Invalid directory" w) /\
     do_save (self (snd (save_dir_set isdir arg w))) = do_save (self w) /\
     save_dir (self (snd (save_dir_set isdir arg w))) = save_dir (self w)).
Proof.
  unfold save_dir_set.
  destruct (isdir arg); simpl; repeat split; try discriminate; auto.
Qed.

Lemma save_dir_set_accepts_directories_witness :
  Sample.isdir "/tmp" = true /\
  save_dir (self (snd (save_dir_set Sample.isdir "/tmp" Sample.start))) = "/tmp" /\
  Sample.isdir "/does/not/exist" = false /\
  save_dir (self (snd (save_dir_set Sample.isdir "/does/not/exist" Sample.start)))
    = Sample.SAVES.
Proof.
  split; [reflexivity|]. split.
  - apply (proj1 (proj2 (save_dir_set_accepts_directories
                           Sample.isdir "/tmp" Sample.start))).
    reflexivity.
  - split; [reflexivity|].
    apply (proj2 (proj2 (save_dir_set_accepts_directories
                           Sample.isdir "/does/not/exist" Sample.start))).
    reflexivity.
Defined.

(** C5: the frequency check succeeds on the tokens [float] reads as a
    float between 88 and 108 and, besides, on those it reads as
    not-a-number.  On the token [nan] both comparisons [freq < 88] and
    [freq > 108] are false, so the handler prints nothing, stores the value
    and reports success, and [process] returns SUCCESS, although neither
    [88 <= nan] nor [nan <= 108] holds. *)
Theorem frequency_accepts_nan (isdir : string -> bool) (w : world) :
  (forall arg,
     fst (frequency arg w) = Ret true <->
     exists f, float_of_str arg = Some f /\
               (f = S754_nan \/
                (SFleb (float_of_int 88) f = true /\
                 SFleb f (float_of_int 108) = true))) /\
  float_of_str "nan" = Some S754_nan /\
  SFleb (float_of_int 88) S754_nan = false /\
  SFleb S754_nan (float_of_int 108) = false /\
  frequency "nan" w =
    (Ret true, update_nrsc5 (NRSC5.set_freq (Some S754_nan)) w) /\
  process isdir ["prog"; "nan"] w =
    (Ret SUCCESS, update_nrsc5 (NRSC5.set_freq (Some S754_nan)) w).
Proof.
  split; [intros arg; apply frequency_succeeds_iff|].
  repeat split; reflexivity.
Qed.

(** C4: [format_cmd] stores exactly the vector [nrsc5 -l <log> -p <ppm>
    --dump-aas-files <dump_dir> <freq> <channel>], the numbers rendered by
    [str], and changes no other field; the tokens
    [prog -c 2 -p 5 95.5] give SUCCESS, channel 2, ppm 5, log 3,
    frequency 95.5 and the command vector
    [nrsc5 -l 3 -p 5 --dump-aas-files DUMP 95.5 2], which is also what the
    entry point launches. *)
Theorem format_cmd_vector :
  (forall cfg : NRSC5.t,
     NRSC5.format_cmd cfg =
       NRSC5.mk (NRSC5.channel cfg) (NRSC5.ppm cfg) (NRSC5.log cfg)
         (NRSC5.freq cfg) (NRSC5.dump_dir cfg)
         (Some [ "nrsc5"; "-l"; str_int (NRSC5.log cfg);
                 "-p"; str_int (NRSC5.ppm cfg);
                 "--dump-aas-files"; NRSC5.dump_dir cfg;
                 str_opt_float (NRSC5.freq cfg);
                 str_int (NRSC5.channel cfg) ])) /\
  (forall (DUMP SAVES : string) (isdir : string -> bool),
     let args := ["prog"; "-c"; "2"; "-p"; "5"; "95.5"] in
     let cfg := NRSC5.mk 2 5 3 (Some f95_5) DUMP None in
     let cmd := ["nrsc5"; "-l"; "3"; "-p"; "5"; "--dump-aas-files"; DUMP;
                 "95.5"; "2"] in
     process isdir args (initial DUMP SAVES) =
       (Ret SUCCESS, World (mk cfg false SAVES false) []) /\
     NRSC5.cmd_args (NRSC5.format_cmd cfg) = Some cmd /\
     launched (snd (main DUMP SAVES isdir args)) = Some cmd).
Proof.
  split.
  - intros cfg. reflexivity.
  - intros DUMP SAVES isdir. repeat split; vm_compute; reflexivity.
Qed.

(** C1: started with the program name alone, argument processing prints
    "No frequency specified" and returns HALT with the frequency still
    unset, and the entry point goes on to launch the binary, with [None]
    in the frequency position of its argument vector. *)
Theorem main_launches_with_frequency_unset
    (DUMP SAVES : string) (isdir : string -> bool) :
  let r := process isdir ["prog"] (initial DUMP SAVES) in
  fst r = Ret HALT /\
  NRSC5.freq (nrsc5 (self (snd r))) = None /\
  launched (snd (main DUMP SAVES isdir ["prog"])) =
    Some ["nrsc5"; "-l"; "3"; "-p"; "0"; "--dump-aas-files"; DUMP;
          "None"; "0"].
Proof.
  repeat split; vm_compute; reflexivity.
Qed.

(** ** [process] *)

Section Process.

Variable isdir : string -> bool.

(** Past the help, length and frequency checks, [process] is its loop. *)
Lemma process_scan (args : list string) (w w1 : world) (tok : string) :
  has_help args = false -> length args <> 1%nat ->
  last args = Some tok -> frequency tok w = (Ret true, w1) ->
  process isdir args w =
  match scan isdir args (seq 0 (length args)) w1 with
  | (Ret (Some rc), w2) => (Ret rc, w2)
  | (Ret None, w2) => (Ret SUCCESS, w2)
  | (Raise e, w2) => (Raise e, w2)
  end.
Proof.
  intros Hhelp Hlen Hlast Hfreq. unfold process.
  fold (has_help args). rewrite Hhelp.
  destruct (Z.eqb_spec (Z.of_nat (length args)) 1); [lia|].
  rewrite Hlast, Hfreq. reflexivity.
Qed.

Lemma process_frequency_fails (args : list string) (w w1 : world)
    (tok : string) :
  has_help args = false -> length args <> 1%nat ->
  last args = Some tok -> frequency tok w = (Ret false, w1) ->
  process isdir args w = (Ret HALT, w1).
Proof.
  intros Hhelp Hlen Hlast Hfreq. unfold process.
  fold (has_help args). rewrite Hhelp.
  destruct (Z.eqb_spec (Z.of_nat (length args)) 1); [lia|].
  rewrite Hlast, Hfreq. reflexivity.
Qed.

(** [process] when the loop stops at turn [i]. *)
Lemma process_stops_at (args : list string) (w w1 w2 w3 : world)
    (tok : string) (i : nat) (r : outcome (option Z)) :
  has_help args = false -> length args <> 1%nat ->
  last args = Some tok -> frequency tok w = (Ret true, w1) ->
  (i < length args)%nat ->
  scan isdir args (seq 0 i) w1 = (Ret None, w2) ->
  scan_step isdir args i w2 = (r, w3) ->
  r <> Ret None ->
  process isdir args w =
  match r with
  | Ret (Some rc) => (Ret rc, w3)
  | Ret None => (Ret SUCCESS, w3)
  | Raise e => (Raise e, w3)
  end.
Proof.
  intros Hhelp Hlen Hlast Hfreq Hi Hpre Hstep Hr.
  rewrite (process_scan args w w1 tok Hhelp Hlen Hlast Hfreq).
  rewrite (scan_stops_at isdir args i w1 w2 w3 r Hi Hpre Hstep Hr).
  reflexivity.
Qed.

End Process.

(** C3, amended: for every token list, a help flag anywhere gives the
    usage text and HALT with nothing else done; otherwise a list of one
    token gives "No frequency specified" and HALT; otherwise the last
    token goes through the frequency check, which always answers, and its
    failure gives HALT at once, no handler having run; otherwise, provided
    every token but the last is non-empty and, if it begins with a dash, is
    one of the five mapped flags, the mapped flags are checked left to
    right, the first failure gives HALT, and SUCCESS is returned when none
    fails. *)
Theorem process_validation_order
    (isdir : string -> bool) (args : list string) (w : world) :
  (has_help args = true -> process isdir args w = (Ret HALT, help w)) /\
  (has_help args = false -> length args = 1%nat ->
     process isdir args w =
       (Ret HALT, print "Error: No frequency specified" w)) /\
  (forall tok,
     has_help args = false -> length args <> 1%nat -> last args = Some tok ->
     (exists b w', frequency tok w = (Ret b, w')) /\
     (forall w', frequency tok w = (Ret false, w') ->
        process isdir args w = (Ret HALT, w')) /\
     (forall w', frequency tok w = (Ret true, w') -> scan_safe args = true ->
        process isdir args w =
          let '(ok, w'') := first_failure (flag_checks isdir args) w' in
          (Ret (if ok then SUCCESS else HALT), w''))).
Proof.
  split; [|split].
  - intros Hhelp. unfold process. fold (has_help args). now rewrite Hhelp.
  - intros Hhelp Hlen. unfold process. fold (has_help args).
    now rewrite Hhelp, Hlen.
  - intros tok Hhelp Hlen Hlast. split; [apply frequency_returns|]. split.
    + intros w'. now apply process_frequency_fails.
    + intros w' Hfreq Hsafe.
      rewrite (process_scan isdir args w w' tok Hhelp Hlen Hlast Hfreq).
      pose proof (scan_first_failure isdir args args [] w' eq_refl Hsafe)
        as Hscan.
      simpl length in Hscan at 1. rewrite Hscan.
      * destruct (first_failure (flag_checks isdir args) w') as [[|] w''];
          reflexivity.
      * intros t Ht. rewrite Hlast in Ht. injection Ht as <-.
        exact (frequency_nonempty tok w w' Hfreq).
Qed.

Lemma process_validation_order_witness :
  let args := ["prog"; "-c"; "2"; "-s"; "/does/not/exist"; "-l"; "9"; "90.0"] in
  process Sample.isdir args Sample.start =
    (Ret HALT,
     print "Error: Invalid directory"
       (update_nrsc5 (NRSC5.set_channel 2)
          (snd (frequency "90.0" Sample.start)))).
Proof.
  intros args.
  destruct (process_validation_order Sample.isdir args Sample.start)
    as (_ & _ & Hlast).
  destruct (Hlast "90.0") as (_ & _ & Hscan);
    [reflexivity | discriminate | reflexivity |].
  apply (Hscan (snd (frequency "90.0" Sample.start))); reflexivity.
Defined.

(** C3, as stated, fails: on [prog -x 1 95.5] there is no help flag, there
    is more than one token, the frequency is valid and no check fails, yet
    [process] does not return SUCCESS: it raises [KeyError]. *)
Lemma unmapped_flag_breaks_validation_order :
  let args := ["prog"; "-x"; "1"; "95.5"] in
  has_help args = false /\ length args <> 1%nat /\
  last args = Some "95.5" /\
  fst (frequency "95.5" Sample.start) = Ret true /\
  fst (first_failure (flag_checks Sample.isdir args)
         (snd (frequency "95.5" Sample.start))) = true /\
  fst (process Sample.isdir args Sample.start) = Raise KeyError /\
  fst (process Sample.isdir args Sample.start) <> Ret SUCCESS.
Proof.
  repeat split; try reflexivity; vm_compute; discriminate.
Qed.

(** C2: on [prog -p -5 95.5] there is no help flag and the frequency is
    valid; the [-p] handler takes [-5] as its argument and stores
    ppm = -5, and the loop then looks the token [-5] up as a flag, which
    [option_map] does not hold: [process] raises [KeyError] instead of
    returning SUCCESS. *)
Theorem negative_argument_is_looked_up_as_flag
    (DUMP SAVES : string) (isdir : string -> bool) :
  let args := ["prog"; "-p"; "-5"; "95.5"] in
  has_help args = false /\
  last args = Some "95.5" /\
  fst (frequency "95.5" (initial DUMP SAVES)) = Ret true /\
  ppm "-5" (initial DUMP SAVES) =
    (Ret true, update_nrsc5 (NRSC5.set_ppm (-5)) (initial DUMP SAVES)) /\
  option_map isdir !! "-5" = None /\
  process isdir args (initial DUMP SAVES) =
    (Raise KeyError,
     World (mk (NRSC5.mk 0 (-5) 3 (Some f95_5) DUMP None) false SAVES false)
           []) /\
  fst (process isdir args (initial DUMP SAVES)) <> Ret SUCCESS.
Proof.
  repeat split; try reflexivity. vm_compute. discriminate.
Qed.

(** C6, amended: with no help flag and a valid last-token frequency, if a
    token that is not the last one begins with a dash and is none of the
    five mapped flags, and the loop gets as far as that token (every
    earlier turn went on to the next), then [process] raises [KeyError]
    there, in the state the earlier turns left. *)
Theorem unmapped_flag_raises_KeyError
    (isdir : string -> bool) (args : list string) (w w1 w2 : world)
    (ftok tok : string) (i : nat) :
  has_help args = false ->
  last args = Some ftok -> frequency ftok w = (Ret true, w1) ->
  args !! i = Some tok -> (i < length args - 1)%nat ->
  dashed tok = true -> tok ∉ flags ->
  scan isdir args (seq 0 i) w1 = (Ret None, w2) ->
  process isdir args w = (Raise KeyError, w2).
Proof.
  intros Hhelp Hlast Hfreq Hi Hlt Hd Hnot Hpre.
  apply (process_stops_at isdir args w w1 w2 w2 ftok i (Raise KeyError));
    try assumption; try lia; try discriminate.
  now apply scan_step_unmapped with tok.
Qed.

Lemma not_a_flag_x : "-x" ∉ flags.
Proof.
  apply (bool_decide_eq_false_1 ("-x" ∈ flags)). reflexivity.
Qed.

Lemma unmapped_flag_raises_KeyError_witness :
  process Sample.isdir ["prog"; "-x"; "1"; "95.5"] Sample.start =
    (Raise KeyError, snd (frequency "95.5" Sample.start)).
Proof.
  apply (unmapped_flag_raises_KeyError Sample.isdir
           ["prog"; "-x"; "1"; "95.5"] Sample.start
           (snd (frequency "95.5" Sample.start))
           (snd (frequency "95.5" Sample.start)) "95.5" "-x" 1).
  - reflexivity.
  - reflexivity.
  - reflexivity.
  - reflexivity.
  - simpl. lia.
  - reflexivity.
  - exact not_a_flag_x.
  - reflexivity.
Defined.

(** C6, as stated, fails: on [prog -c 9 -x 1 95.5] the token [-x] is not
    the last one, begins with a dash and is no mapped flag, yet [process]
    returns the exit code HALT, for the channel, and raises nothing. *)
Lemma earlier_failure_hides_unmapped_flag :
  let args := ["prog"; "-c"; "9"; "-x"; "1"; "95.5"] in
  has_help args = false /\
  last args = Some "95.5" /\
  fst (frequency "95.5" Sample.start) = Ret true /\
  (args !! 3%nat) = Some "-x" /\ (3 < length args - 1)%nat /\
  dashed "-x" = true /\ ("-x" ∉ flags) /\
  process Sample.isdir args Sample.start =
    (Ret HALT,
     print "Error: Invalid channel (0 - 3)"
       (snd (frequency "95.5" Sample.start))).
Proof.
  repeat split; try reflexivity; try exact not_a_flag_x. simpl. lia.
Qed.

(** C10, amended: with no help flag, more than one token and a valid
    last-token frequency, if some token is the empty string and the loop
    gets as far as that token (every earlier turn went on to the next),
    then [process] raises [IndexError] there. *)
Theorem empty_token_raises_IndexError
    (isdir : string -> bool) (args : list string) (w w1 w2 : world)
    (ftok : string) (i : nat) :
  has_help args = false -> (1 < length args)%nat ->
  last args = Some ftok -> frequency ftok w = (Ret true, w1) ->
  args !! i = Some "" ->
  scan isdir args (seq 0 i) w1 = (Ret None, w2) ->
  process isdir args w = (Raise IndexError, w2).
Proof.
  intros Hhelp Hlen Hlast Hfreq Hi Hpre.
  apply (process_stops_at isdir args w w1 w2 w2 ftok i (Raise IndexError));
    try assumption; try lia; try discriminate.
  - exact (lookup_lt_Some _ _ _ Hi).
  - unfold scan_step. now rewrite Hi.
Qed.

Lemma empty_token_raises_IndexError_witness :
  process Sample.isdir ["prog"; "-c"; "2"; ""; "95.5"] Sample.start =
    (Raise IndexError,
     update_nrsc5 (NRSC5.set_channel 2) (snd (frequency "95.5" Sample.start))).
Proof.
  apply (empty_token_raises_IndexError Sample.isdir
           ["prog"; "-c"; "2"; ""; "95.5"] Sample.start
           (snd (frequency "95.5" Sample.start))
           (update_nrsc5 (NRSC5.set_channel 2)
              (snd (frequency "95.5" Sample.start)))
           "95.5" 3).
  - reflexivity.
  - simpl. lia.
  - reflexivity.
  - reflexivity.
  - reflexivity.
  - reflexivity.
Defined.

(** C10, as stated, fails: [prog -c 9 "" 95.5] holds an empty token, no
    help flag, more than one token and a valid last-token frequency, yet
    [process] returns the exit code HALT, for the channel, before the
    empty token is looked at. *)
Lemma earlier_failure_hides_empty_token :
  let args := ["prog"; "-c"; "9"; ""; "95.5"] in
  "" ∈ args /\ has_help args = false /\ (1 < length args)%nat /\
  last args = Some "95.5" /\
  fst (frequency "95.5" Sample.start) = Ret true /\
  process Sample.isdir args Sample.start =
    (Ret HALT,
     print "Error: Invalid channel (0 - 3)"
       (snd (frequency "95.5" Sample.start))).
Proof.
  repeat split; try reflexivity.
  - apply (bool_decide_eq_true_1 _). reflexivity.
  - simpl. lia.
Qed.

(** C9, amended: with no help flag and a valid last-token frequency, if
    [-a] is followed by a token and the loop gets as far as that [-a]
    (every earlier turn went on to the next), then whatever the following
    token is, the turn at [-a] sets [art] to true, changes nothing else and
    goes on to the next turn, and [art] is still true in the state
    [process] ends in. *)
Theorem art_flag_sets_art
    (isdir : string -> bool) (args : list string) (w w1 w2 : world)
    (ftok arg : string) (i : nat) :
  has_help args = false ->
  last args = Some ftok -> frequency ftok w = (Ret true, w1) ->
  args !! i = Some "-a" -> args !! (i + 1)%nat = Some arg ->
  scan isdir args (seq 0 i) w1 = (Ret None, w2) ->
  scan_step isdir args i w2 = (Ret None, set_art true w2) /\
  art (self (snd (process isdir args w))) = true.
Proof.
  intros Hhelp Hlast Hfreq Hi Hi1 Hpre.
  assert (Hstep : scan_step isdir args i w2 = (Ret None, set_art true w2))
    by (now rewrite (scan_step_flag isdir args i "-a" arg art_set w2)).
  split; [exact Hstep|].
  pose proof (lookup_lt_Some _ _ _ Hi1) as Hlt.
  rewrite (process_scan isdir args w w1 ftok Hhelp ltac:(lia) Hlast Hfreq).
  replace (length args) with (i + S (length args - S i))%nat by lia.
  rewrite seq_app, scan_app, Hpre. cbn [seq scan Nat.add]. rewrite Hstep.
  pose proof (scan_keeps_art isdir args (seq (S i) (length args - S i))
                (set_art true w2) eq_refl) as Hk.
  destruct (scan isdir args _ (set_art true w2)) as [[[rc|]|e] w3];
    exact Hk.
Qed.

Lemma art_flag_sets_art_witness :
  art (self (snd (process Sample.isdir ["prog"; "-a"; "-x"; "95.5"]
                    Sample.start))) = true.
Proof.
  apply (proj2 (art_flag_sets_art Sample.isdir
           ["prog"; "-a"; "-x"; "95.5"] Sample.start
           (snd (frequency "95.5" Sample.start))
           (snd (frequency "95.5" Sample.start)) "95.5" "-x" 1
           eq_refl eq_refl eq_refl eq_refl eq_refl eq_refl)).
Defined.

(** C9, as stated, fails: on [prog -c 9 -a x 95.5] there is no help flag,
    the frequency is valid and [-a] is followed by a token, yet [art] is
    false when [process] ends: the channel check has failed before. *)
Lemma earlier_failure_leaves_art_unset :
  let args := ["prog"; "-c"; "9"; "-a"; "x"; "95.5"] in
  has_help args = false /\
  last args = Some "95.5" /\
  fst (frequency "95.5" Sample.start) = Ret true /\
  (args !! 3%nat) = Some "-a" /\ (args !! 4%nat) = Some "x" /\
  fst (process Sample.isdir args Sample.start) = Ret HALT /\
  art (self (snd (process Sample.isdir args Sample.start))) = false.
Proof.
  repeat split; reflexivity.
Qed.

(** * Further properties of the handlers and of [process] *)

(** ** What a handler does to the state *)

Section Effects.

Variable isdir : string -> bool.

(** A mapped handler answers; a success prints nothing, a failure prints
    one line and touches nothing else. *)
Lemma handler_effect (flag : string)
    (h : string -> world -> outcome bool * world) (arg : string) (w : world) :
  option_map isdir !! flag = Some h ->
  exists b w', h arg w = (Ret b, w') /\
    (b = true -> stdout w' = stdout w) /\
    (b = false -> exists line, w' = print line w).
Proof.
  unfold option_map. intros H.
  repeat (apply lookup_insert_Some in H as [[_ <-]|[_ H]]);
    [ rewrite channel_cases | rewrite ppm_cases | rewrite log_cases
    | unfold art_set | unfold save_dir_set | ].
  - destruct (int arg) as [c|]; [destruct (_ && _)|];
      eexists _, _; (split; [reflexivity|]); split;
      try discriminate; try reflexivity; eauto.
  - destruct (int arg); eexists _, _; (split; [reflexivity|]); split;
      try discriminate; try reflexivity; eauto.
  - destruct (int arg) as [c|]; [destruct (_ && _)|];
      eexists _, _; (split; [reflexivity|]); split;
      try discriminate; try reflexivity; eauto.
  - eexists _, _; (split; [reflexivity|]); split;
      try discriminate; reflexivity.
  - destruct (negb (isdir arg)); eexists _, _; (split; [reflexivity|]);
      split; try discriminate; try reflexivity; eauto.
  - rewrite lookup_empty in H. discriminate.
Qed.

Lemma frequency_effect (arg : string) (w : world) :
  exists b w', frequency arg w = (Ret b, w') /\
    (b = true -> stdout w' = stdout w) /\
    (b = false -> exists line, w' = print line w).
Proof.
  rewrite frequency_cases.
  destruct (float_of_str arg) as [f|]; [destruct (_ || _)|];
    eexists _, _; (split; [reflexivity|]); split;
    try discriminate; try reflexivity; eauto.
Qed.

(** One turn of the loop: it goes on or raises with nothing printed, or
    returns HALT with one line printed. *)
Lemma scan_step_outcome (args : list string) (i : nat) (w : world) :
  match scan_step isdir args i w with
  | (Ret None, w') => stdout w' = stdout w
  | (Ret (Some rc), w') =>
      rc = HALT /\ exists line, stdout w' = stdout w ++ [line]
  | (Raise e, w') => (e = IndexError \/ e = KeyError) /\ stdout w' = stdout w
  end.
Proof.
  unfold scan_step.
  destruct (args !! i) as [[|c s]|]; try (split; [now left|reflexivity]).
  destruct (negb (Ascii.eqb c "-")); [reflexivity|].
  destruct (_ <? _); [|reflexivity].
  destruct (option_map isdir !! String c s) as [h|] eqn:Hh;
    [|split; [now right|reflexivity]].
  destruct (args !! (i + 1)%nat) as [arg|];
    [|split; [now left|reflexivity]].
  destruct (handler_effect _ h arg w Hh) as (b & w' & -> & Ht & Hf).
  destruct b; simpl.
  - now apply Ht.
  - destruct (Hf eq_refl) as [line ->]. split; [reflexivity|]. now exists line.
Qed.

Lemma scan_outcome (args : list string) (range : list nat) :
  forall w,
  match scan isdir args range w with
  | (Ret None, w') => stdout w' = stdout w
  | (Ret (Some rc), w') =>
      rc = HALT /\ exists line, stdout w' = stdout w ++ [line]
  | (Raise e, w') => (e = IndexError \/ e = KeyError) /\ stdout w' = stdout w
  end.
Proof.
  induction range as [|i range IH]; intros w; [reflexivity|].
  simpl. pose proof (scan_step_outcome args i w) as Hs.
  destruct (scan_step isdir args i w) as [[[rc|]|e] w1]; try exact Hs.
  specialize (IH w1).
  destruct (scan isdir args range w1) as [[[rc|]|e] w2];
    rewrite <- Hs; exact IH.
Qed.

(** The writes [process] can make: a property kept by each of them is kept
    by [process]. *)
Lemma handler_preserves (P : world -> Prop) (flag : string)
    (h : string -> world -> outcome bool * world) (arg : string) (w : world) :
  (forall line w, P w -> P (print line w)) ->
  (forall c w, 0 <= c <= 3 -> P w ->
     P (update_nrsc5 (NRSC5.set_channel c) w)) ->
  (forall v w, P w -> P (update_nrsc5 (NRSC5.set_ppm v) w)) ->
  (forall l w, 1 <= l <= 3 -> P w ->
     P (update_nrsc5 (NRSC5.set_log l) w)) ->
  (forall w, P w -> P (set_art true w)) ->
  (forall d w, isdir d = true -> P w ->
     P (set_do_save true (set_save_dir d w))) ->
  option_map isdir !! flag = Some h ->
  P w -> P (snd (h arg w)).
Proof.
  intros Hprint Hchan Hppm Hlog Hart Hsave H HP. unfold option_map in H.
  repeat (apply lookup_insert_Some in H as [[_ <-]|[_ H]]);
    [ rewrite channel_cases | rewrite ppm_cases | rewrite log_cases
    | unfold art_set | unfold save_dir_set | ].
  - destruct (int arg) as [c|]; [|now apply Hprint].
    destruct (Z.leb_spec 0 c), (Z.leb_spec c 3); simpl;
      try (now apply Hprint). apply Hchan; [lia|assumption].
  - destruct (int arg); [now apply Hppm | now apply Hprint].
  - destruct (int arg) as [l|]; [|now apply Hprint].
    destruct (Z.leb_spec 1 l), (Z.leb_spec l 3); simpl;
      try (now apply Hprint). apply Hlog; [lia|assumption].
  - now apply Hart.
  - destruct (isdir arg) eqn:E; simpl; [now apply Hsave | now apply Hprint].
  - rewrite lookup_empty in H. discriminate.
Qed.

Lemma scan_preserves (P : world -> Prop) (args : list string) :
  (forall line w, P w -> P (print line w)) ->
  (forall c w, 0 <= c <= 3 -> P w ->
     P (update_nrsc5 (NRSC5.set_channel c) w)) ->
  (forall v w, P w -> P (update_nrsc5 (NRSC5.set_ppm v) w)) ->
  (forall l w, 1 <= l <= 3 -> P w ->
     P (update_nrsc5 (NRSC5.set_log l) w)) ->
  (forall w, P w -> P (set_art true w)) ->
  (forall d w, isdir d = true -> P w ->
     P (set_do_save true (set_save_dir d w))) ->
  forall range w, P w -> P (snd (scan isdir args range w)).
Proof.
  intros Hprint Hchan Hppm Hlog Hart Hsave.
  assert (Hstep : forall i w, P w -> P (snd (scan_step isdir args i w))).
  { intros i w0 HP0. unfold scan_step.
    destruct (args !! i) as [[|c s]|]; try assumption.
    destruct (negb (Ascii.eqb c "-")); [assumption|].
    destruct (_ <? _); [|assumption].
    destruct (option_map isdir !! String c s) as [h|] eqn:Hh; [|assumption].
    destruct (args !! (i + 1)%nat) as [arg|]; [|assumption].
    pose proof (handler_preserves P _ h arg w0 Hprint Hchan Hppm Hlog Hart
                  Hsave Hh HP0) as Hk.
    destruct (h arg w0) as [[rc|e] w']; [destruct (negb rc)|]; exact Hk. }
  induction range as [|i range IH]; intros w0 HP0; [assumption|].
  simpl. pose proof (Hstep i w0 HP0) as Hk.
  destruct (scan_step isdir args i w0) as [[[rc|]|e] w']; auto.
Qed.

Lemma process_preserves (P : world -> Prop) :
  (forall line w, P w -> P (print line w)) ->
  (forall c w, 0 <= c <= 3 -> P w ->
     P (update_nrsc5 (NRSC5.set_channel c) w)) ->
  (forall v w, P w -> P (update_nrsc5 (NRSC5.set_ppm v) w)) ->
  (forall l w, 1 <= l <= 3 -> P w ->
     P (update_nrsc5 (NRSC5.set_log l) w)) ->
  (forall f w, lt f (float_of_int 88) = false ->
     gt f (float_of_int 108) = false -> P w ->
     P (update_nrsc5 (NRSC5.set_freq (Some f)) w)) ->
  (forall w, P w -> P (set_art true w)) ->
  (forall d w, isdir d = true -> P w ->
     P (set_do_save true (set_save_dir d w))) ->
  forall args w, P w -> P (snd (process isdir args w)).
Proof.
  intros Hprint Hchan Hppm Hlog Hfreq Hart Hsave args w HP.
  unfold process.
  destruct (_ || _); [now apply Hprint|].
  destruct (_ =? 1); [now apply Hprint|].
  destruct (last args) as [tok|]; [|assumption].
  rewrite frequency_cases.
  destruct (float_of_str tok) as [f|]; [|now apply Hprint].
  destruct (lt f (float_of_int 88)) eqn:E1; [now apply Hprint|].
  destruct (gt f (float_of_int 108)) eqn:E2; [now apply Hprint|].
  simpl.
  pose proof (scan_preserves P args Hprint Hchan Hppm Hlog Hart Hsave
                (seq 0 (length args)) _ (Hfreq f w E1 E2 HP)) as Hk.
  destruct (scan isdir args _ _) as [[[rc|]|e] w']; exact Hk.
Qed.

End Effects.

(** X1: the [-l] handler succeeds exactly on the strings that [int] reads
    as an integer [l] with [1 <= l <= 3]; on success the log level becomes
    [l] and nothing else changes, otherwise the handler prints
    "Error: Invalid log level (1 - 3)", reports failure and changes no
    field. *)
Theorem log_accepts_1_to_3 (arg : string) (w : world) :
  (fst (log arg w) = Ret true <->
   exists l, int arg = Some l /\ 1 <= l <= 3) /\
  (forall l, int arg = Some l -> 1 <= l <= 3 ->
     log arg w = (Ret true, update_nrsc5 (NRSC5.set_log l) w)) /\
  (fst (log arg w) <> Ret true ->
     log arg w = (Ret false, print "Error: Invalid log level (1 - 3)" w)).
Proof.
  rewrite log_cases.
  destruct (int arg) as [l|] eqn:Hint.
  - destruct (Z.leb_spec 1 l) as [H1|H1], (Z.leb_spec l 3) as [H3|H3];
      simpl; (split; [split|split]);
      try (intros [l' [[= <-] ?]]); try (intros l' [= <-] ?);
      try lia; try discriminate; try tauto; eauto.
  - simpl. split; [split|split]; try discriminate; try tauto.
    intros [l [? _]]. discriminate.
Qed.

Lemma log_accepts_1_to_3_witness :
  int "1" = Some 1 /\
  log "1" Sample.start =
    (Ret true, update_nrsc5 (NRSC5.set_log 1) Sample.start).
Proof.
  split; [reflexivity|].
  apply (proj1 (proj2 (log_accepts_1_to_3 "1" Sample.start)) 1);
    [reflexivity | lia].
Defined.

(** X2: the [-p] handler succeeds exactly on the strings that [int] reads
    as an integer, of either sign and with no range check of its own; on
    success ppm becomes that integer and nothing else changes, otherwise
    the handler prints "Error: Invalid PPM argument", reports failure and
    changes no field. *)
Theorem ppm_accepts_every_integer (arg : string) (w : world) :
  (fst (ppm arg w) = Ret true <-> exists v, int arg = Some v) /\
  (forall v, int arg = Some v ->
     ppm arg w = (Ret true, update_nrsc5 (NRSC5.set_ppm v) w)) /\
  (int arg = None ->
     ppm arg w = (Ret false, print "Error: Invalid PPM argument" w)).
Proof.
  rewrite ppm_cases.
  destruct (int arg) as [v|]; simpl; (split; [split|split]);
    try discriminate; try reflexivity; eauto.
  - intros v' [= <-]. reflexivity.
  - intros [v Hv]. discriminate.
Qed.

Lemma ppm_accepts_every_integer_witness :
  int "-120" = Some (-120) /\
  ppm "-120" Sample.start =
    (Ret true, update_nrsc5 (NRSC5.set_ppm (-120)) Sample.start).
Proof.
  split; [reflexivity|].
  apply (proj1 (proj2 (ppm_accepts_every_integer "-120" Sample.start))
           (-120)).
  reflexivity.
Defined.

(** X3: no handler lets an exception out (the second [int(arg)] or
    [float(arg)] never raises [ValueError]).  The frequency check and each
    of the five mapped handlers answer true or false; on true nothing is
    printed, on false exactly one line is printed and no attribute of
    either object is changed. *)
Theorem handlers_answer_and_fail_with_one_line
    (isdir : string -> bool) (flag : string)
    (h : string -> world -> outcome bool * world) (arg : string) (w : world) :
  (exists b w', frequency arg w = (Ret b, w') /\
     (b = true -> stdout w' = stdout w) /\
     (b = false -> exists line, w' = print line w)) /\
  (option_map isdir !! flag = Some h ->
   exists b w', h arg w = (Ret b, w') /\
     (b = true -> stdout w' = stdout w) /\
     (b = false -> exists line, w' = print line w)).
Proof.
  split; [apply frequency_effect | apply handler_effect].
Qed.

Lemma handlers_answer_and_fail_with_one_line_witness :
  exists b w', log "7" Sample.start = (Ret b, w') /\
     (b = true -> stdout w' = stdout Sample.start) /\
     (b = false -> exists line, w' = print line Sample.start).
Proof.
  apply (proj2 (handlers_answer_and_fail_with_one_line
                  Sample.isdir "-l" log "7" Sample.start)).
  reflexivity.
Defined.

(** X4: [process] ends in one of four ways only: it returns SUCCESS (0),
    returns HALT (1), raises [IndexError] or raises [KeyError]; it never
    raises [ValueError] and returns no other code.  On the empty token
    list it raises [IndexError]. *)
Theorem process_outcomes
    (isdir : string -> bool) (args : list string) (w : world) :
  (fst (process isdir args w) = Ret SUCCESS \/
   fst (process isdir args w) = Ret HALT \/
   fst (process isdir args w) = Raise IndexError \/
   fst (process isdir args w) = Raise KeyError) /\
  process isdir [] w = (Raise IndexError, w).
Proof.
  split; [|reflexivity].
  unfold process.
  destruct (_ || _); [auto|].
  destruct (_ =? 1); [auto|].
  destruct (last args) as [tok|]; [|auto].
  destruct (frequency_returns tok w) as (b & w1 & ->).
  destruct b; simpl; [|auto].
  pose proof (scan_outcome isdir args (seq 0 (length args)) w1) as Hs.
  destruct (scan isdir args _ w1) as [[[rc|]|e] w2]; simpl.
  - destruct Hs as [-> _]. auto.
  - auto.
  - destruct Hs as [[-> | ->] _]; auto.
Qed.

(** X5: [process] only ever adds to what has been printed: nothing when it
    returns SUCCESS or raises, exactly one line when it returns HALT. *)
Theorem process_prints_one_line_on_halt
    (isdir : string -> bool) (args : list string) (w : world) :
  match process isdir args w with
  | (Ret rc, w') =>
      if rc =? SUCCESS then stdout w' = stdout w
      else exists line, stdout w' = stdout w ++ [line]
  | (Raise _, w') => stdout w' = stdout w
  end.
Proof.
  unfold process.
  destruct (_ || _); [now exists HELP|].
  destruct (_ =? 1); [now eexists|].
  destruct (last args) as [tok|]; [|reflexivity].
  destruct (frequency_effect tok w) as (b & w1 & -> & Ht & Hf).
  destruct b; simpl.
  - pose proof (scan_outcome isdir args (seq 0 (length args)) w1) as Hs.
    rewrite <- (Ht eq_refl).
    destruct (scan isdir args _ w1) as [[[rc|]|e] w2]; simpl.
    + destruct Hs as [-> Hs]. exact Hs.
    + exact Hs.
    + apply Hs.
  - destruct (Hf eq_refl) as [line ->]. now exists line.
Qed.

(** X6: [process] keeps the configuration within its ranges, however it
    ends: if the channel is in 0..3, the log level in 1..3, the frequency
    unset or passed by the range test, and the save directory an existing
    directory whenever saving is on, the same holds afterwards. *)
Theorem process_keeps_ranges
    (isdir : string -> bool) (args : list string) (w : world) :
  let ok (w : world) :=
    0 <= NRSC5.channel (nrsc5 (self w)) <= 3 /\
    1 <= NRSC5.log (nrsc5 (self w)) <= 3 /\
    (forall f, NRSC5.freq (nrsc5 (self w)) = Some f ->
       lt f (float_of_int 88) = false /\ gt f (float_of_int 108) = false) /\
    (do_save (self w) = true -> isdir (save_dir (self w)) = true) in
  ok w -> ok (snd (process isdir args w)).
Proof.
  intros ok. apply (process_preserves isdir ok); unfold ok; simpl.
  - intros _ w0 H. exact H.
  - intros c w0 Hc (_ & H2 & H3 & H4). auto.
  - intros _ w0 H. exact H.
  - intros l w0 Hl (H1 & _ & H3 & H4). auto.
  - intros f w0 E1 E2 (H1 & H2 & _ & H4).
    split; [exact H1|]. split; [exact H2|]. split; [|exact H4].
    intros f' [= <-]. split; assumption.
  - intros w0 H. exact H.
  - intros d w0 Hd (H1 & H2 & H3 & _). auto.
Qed.

Lemma process_keeps_ranges_witness :
  let w := snd (process Sample.isdir
                  ["prog"; "-l"; "2"; "-c"; "7"; "-s"; "/tmp"; "101.1"]
                  Sample.start) in
  0 <= NRSC5.channel (nrsc5 (self w)) <= 3 /\
  1 <= NRSC5.log (nrsc5 (self w)) <= 3 /\
  (forall f, NRSC5.freq (nrsc5 (self w)) = Some f ->
     lt f (float_of_int 88) = false /\ gt f (float_of_int 108) = false) /\
  (do_save (self w) = true -> Sample.isdir (save_dir (self w)) = true).
Proof.
  apply (process_keeps_ranges Sample.isdir
           ["prog"; "-l"; "2"; "-c"; "7"; "-s"; "/tmp"; "101.1"]
           Sample.start).
  simpl. repeat split; try lia; discriminate.
Defined.

(** X7: [process] never writes the dump directory or the stored command
    vector, and never switches album art or saving off again. *)
Theorem process_leaves_dump_dir_and_cmd_args
    (isdir : string -> bool) (args : list string) (w : world) :
  let w' := snd (process isdir args w) in
  NRSC5.dump_dir (nrsc5 (self w')) = NRSC5.dump_dir (nrsc5 (self w)) /\
  NRSC5.cmd_args (nrsc5 (self w')) = NRSC5.cmd_args (nrsc5 (self w)) /\
  (art (self w) = true -> art (self w') = true) /\
  (do_save (self w) = true -> do_save (self w') = true).
Proof.
  apply (process_preserves isdir (fun w' =>
    NRSC5.dump_dir (nrsc5 (self w')) = NRSC5.dump_dir (nrsc5 (self w)) /\
    NRSC5.cmd_args (nrsc5 (self w')) = NRSC5.cmd_args (nrsc5 (self w)) /\
    (art (self w) = true -> art (self w') = true) /\
    (do_save (self w) = true -> do_save (self w') = true)));
    simpl; try (intros; tauto).
Qed.

Lemma process_leaves_dump_dir_and_cmd_args_witness :
  art (self (snd (process Sample.isdir ["prog"; "-c"; "9"; "95.5"]
                    (set_art true Sample.start)))) = true.
Proof.
  apply (proj1 (proj2 (proj2 (process_leaves_dump_dir_and_cmd_args
           Sample.isdir ["prog"; "-c"; "9"; "95.5"]
           (set_art true Sample.start))))).
  reflexivity.
Defined.

(** X8: on a non-empty token list in which every token but the last is
    non-empty and, if it begins with a dash, is one of the five mapped
    flags, [process] raises nothing: it returns SUCCESS or HALT. *)
Theorem process_returns_on_safe_tokens
    (isdir : string -> bool) (args : list string) (w : world) :
  args <> [] -> scan_safe args = true ->
  fst (process isdir args w) = Ret SUCCESS \/
  fst (process isdir args w) = Ret HALT.
Proof.
  intros Hne Hsafe.
  destruct (has_help args) eqn:Hhelp.
  - right. unfold process. fold (has_help args). now rewrite Hhelp.
  - destruct (Nat.eq_dec (length args) 1%nat) as [Hlen|Hlen].
    + right. unfold process. fold (has_help args). now rewrite Hhelp, Hlen.
    + destruct (last args) as [tok|] eqn:Hlast;
        [|apply last_None in Hlast; contradiction].
      destruct (frequency_returns tok w) as ([|] & w1 & Hfreq).
      * rewrite (process_scan isdir args w w1 tok Hhelp Hlen Hlast Hfreq).
        pose proof (scan_first_failure isdir args args [] w1 eq_refl Hsafe)
          as Hscan.
        simpl length in Hscan at 1. rewrite Hscan.
        -- destruct (first_failure (flag_checks isdir args) w1) as [[|] w2];
             simpl; auto.
        -- intros t Ht. rewrite Hlast in Ht. injection Ht as <-.
           exact (frequency_nonempty tok w w1 Hfreq).
      * right.
        now rewrite (process_frequency_fails isdir args w w1 tok
                       Hhelp Hlen Hlast Hfreq).
Qed.

Lemma process_returns_on_safe_tokens_witness :
  fst (process Sample.isdir ["prog"; "-a"; "-c"; "5"; "stray"; "95.5"]
         Sample.start) = Ret SUCCESS \/
  fst (process Sample.isdir ["prog"; "-a"; "-c"; "5"; "stray"; "95.5"]
         Sample.start) = Ret HALT.
Proof.
  apply (process_returns_on_safe_tokens Sample.isdir
           ["prog"; "-a"; "-c"; "5"; "stray"; "95.5"] Sample.start).
  - discriminate.
  - reflexivity.
Defined.

Lemma flag_checks_plain (isdir : string -> bool) (toks : list string) :
  forallb plain (removelast toks) = true -> flag_checks isdir toks = [].
Proof.
  induction toks as [|tok rest IH]; [reflexivity|].
  destruct rest as [|arg rest']; [reflexivity|].
  intros H. change (removelast (tok :: arg :: rest'))
    with (tok :: removelast (arg :: rest')) in H.
  simpl forallb in H. apply andb_prop in H as [Hp Hrest].
  cbn [flag_checks].
  replace (dashed tok) with false
    by (destruct tok; [discriminate|]; simpl in *;
        now destruct (Ascii.eqb _ _)).
  now apply IH.
Qed.

Lemma plain_tokens_safe (toks : list string) :
  forallb plain toks = true -> forallb token_ok toks = true.
Proof.
  induction toks as [|tok rest IH]; [reflexivity|].
  simpl. intros H. apply andb_prop in H as [Hp Hrest].
  rewrite (IH Hrest), andb_true_r.
  destruct tok as [|c s]; [discriminate|]. simpl in *. now rewrite Hp.
Qed.

(** X9: tokens that are neither flags nor the frequency are passed over
    in silence.  With no help flag, at least two tokens and a last token
    that passes the frequency check, if no earlier token is empty or
    begins with a dash, [process] returns SUCCESS in the very state the
    frequency check left: the frequency is set and nothing else is changed
    or printed. *)
Theorem stray_tokens_are_ignored
    (isdir : string -> bool) (args : list string) (w w1 : world)
    (tok : string) :
  has_help args = false -> (1 < length args)%nat ->
  last args = Some tok -> frequency tok w = (Ret true, w1) ->
  forallb plain (removelast args) = true ->
  process isdir args w = (Ret SUCCESS, w1).
Proof.
  intros Hhelp Hlen Hlast Hfreq Hplain.
  rewrite (process_scan isdir args w w1 tok Hhelp ltac:(lia) Hlast Hfreq).
  pose proof (scan_first_failure isdir args args [] w1 eq_refl
                (plain_tokens_safe _ Hplain)) as Hscan.
  simpl length in Hscan at 1. rewrite Hscan.
  - now rewrite (flag_checks_plain isdir args Hplain).
  - intros t Ht. rewrite Hlast in Ht. injection Ht as <-.
    exact (frequency_nonempty tok w w1 Hfreq).
Qed.

Lemma stray_tokens_are_ignored_witness :
  process Sample.isdir ["prog"; "c"; "2"; "wfm"; "95.5"] Sample.start =
    (Ret SUCCESS, snd (frequency "95.5" Sample.start)).
Proof.
  apply (stray_tokens_are_ignored Sample.isdir
           ["prog"; "c"; "2"; "wfm"; "95.5"] Sample.start
           (snd (frequency "95.5" Sample.start)) "95.5").
  - reflexivity.
  - simpl. lia.
  - reflexivity.
  - reflexivity.
  - reflexivity.
Defined.

(** X10: when [process] returns SUCCESS, the frequency of the
    configuration is set: it is the float read from the last token, and
    that float has passed the range test. *)
Theorem success_sets_frequency
    (isdir : string -> bool) (args : list string) (w w' : world) :
  process isdir args w = (Ret SUCCESS, w') ->
  exists tok f,
    last args = Some tok /\ float_of_str tok = Some f /\
    NRSC5.freq (nrsc5 (self w')) = Some f /\
    lt f (float_of_int 88) = false /\ gt f (float_of_int 108) = false.
Proof.
  unfold process.
  destruct (_ || _); [discriminate|].
  destruct (_ =? 1); [discriminate|].
  destruct (last args) as [tok|]; [|discriminate].
  rewrite frequency_cases.
  destruct (float_of_str tok) as [f|] eqn:Hf; [|discriminate].
  destruct (lt f (float_of_int 88)) eqn:E1; [discriminate|].
  destruct (gt f (float_of_int 108)) eqn:E2; [discriminate|].
  simpl.
  pose proof (scan_preserves isdir
                (fun w => NRSC5.freq (nrsc5 (self w)) = Some f) args
                ltac:(auto) ltac:(auto) ltac:(auto) ltac:(auto) ltac:(auto)
                ltac:(auto) (seq 0 (length args))
                (update_nrsc5 (NRSC5.set_freq (Some f)) w) eq_refl) as Hk.
  destruct (scan isdir args _ _) as [[[rc|]|e] w2]; intros Heq;
    try discriminate; inversion Heq; subst; exists tok, f; auto.
Qed.

Lemma success_sets_frequency_witness :
  exists tok f,
    last ["prog"; "-p"; "12"; "88"] = Some tok /\
    float_of_str tok = Some f /\
    NRSC5.freq (nrsc5 (self (snd (process Sample.isdir
                                     ["prog"; "-p"; "12"; "88"]
                                     Sample.start)))) = Some f /\
    lt f (float_of_int 88) = false /\ gt f (float_of_int 108) = false.
Proof.
  apply (success_sets_frequency Sample.isdir ["prog"; "-p"; "12"; "88"]
           Sample.start).
  reflexivity.
Defined.

(** X11: the entry point launches exactly when [process] returns, whatever
    the code.  If [process] raises, the program ends with that exception
    and nothing is launched.  If it returns, the launched vector is
    [nrsc5 -l L -p P --dump-aas-files DUMP F C] built from the final
    configuration, with the log level [L] in 1..3, the channel [C] in 0..3
    and the dump directory still the package constant. *)
Theorem main_launches_the_final_configuration
    (DUMP SAVES : string) (isdir : string -> bool) (argv : list string) :
  match process isdir argv (initial DUMP SAVES) with
  | (Raise e, w) => main DUMP SAVES isdir argv = (Raise e, Trace w None)
  | (Ret _, w) =>
      let cfg := nrsc5 (self w) in
      1 <= NRSC5.log cfg <= 3 /\ 0 <= NRSC5.channel cfg <= 3 /\
      fst (main DUMP SAVES isdir argv) = Ret tt /\
      launched (snd (main DUMP SAVES isdir argv)) =
        Some [ "nrsc5"; "-l"; str_int (NRSC5.log cfg);
               "-p"; str_int (NRSC5.ppm cfg);
               "--dump-aas-files"; DUMP;
               str_opt_float (NRSC5.freq cfg);
               str_int (NRSC5.channel cfg) ]
  end.
Proof.
  pose proof (process_preserves isdir
    (fun w => 1 <= NRSC5.log (nrsc5 (self w)) <= 3 /\
              0 <= NRSC5.channel (nrsc5 (self w)) <= 3 /\
              NRSC5.dump_dir (nrsc5 (self w)) = DUMP)
    ltac:(auto) ltac:(simpl; intros; tauto) ltac:(auto)
    ltac:(simpl; intros; tauto) ltac:(auto) ltac:(auto) ltac:(auto)
    argv (initial DUMP SAVES)
    ltac:(simpl; repeat split; lia)) as Hinv.
  unfold main.
  destruct (process isdir argv (initial DUMP SAVES)) as [[rc|e] w];
    [|reflexivity].
  simpl in Hinv. destruct Hinv as (Hl & Hc & Hd).
  simpl. rewrite Hd. auto.
Qed.

(** ** Integer strings and float strings *)

Lemma digit_val_range (c : ascii) (d : Z) :
  digit_val c = Some d -> 0 <= d <= 9.
Proof.
  unfold digit_val.
  destruct (Z.leb_spec 48 (code c)), (Z.leb_spec (code c) 57); simpl;
    intros [= <-]; lia.
Qed.

(** A digit is not the first letter of [nan], [inf] or [infinity]. *)
Lemma digit_not_letter (c : ascii) (d : Z) :
  digit_val c = Some d ->
  Ascii.eqb (lower c) "n" = false /\ Ascii.eqb (lower c) "i" = false.
Proof.
  destruct c as [[] [] [] [] [] [] [] []]; vm_compute; intros H;
    try discriminate; split; reflexivity.
Qed.

Lemma digitpart_tail_nonneg (n : nat) :
  forall (l : list ascii) (acc cnt : Z),
    (length l <= n)%nat -> 0 <= acc ->
    0 <= fst (fst (digitpart_tail acc cnt l)).
Proof.
  induction n as [|n IH]; intros l acc cnt Hlen Hacc.
  - destruct l; [exact Hacc | simpl in Hlen; lia].
  - destruct l as [|c l']; [exact Hacc|]. simpl in Hlen. simpl.
    destruct (digit_val c) as [d|] eqn:Hc.
    + apply IH; [lia|]. apply digit_val_range in Hc. lia.
    + destruct (is_underscore c); [|exact Hacc].
      destruct l' as [|c2 l'']; [exact Hacc|].
      destruct (digit_val c2) as [d|] eqn:Hc2; [|exact Hacc].
      apply IH; [simpl in Hlen; lia|]. apply digit_val_range in Hc2. lia.
Qed.

(** What [int] reads, [float] reads too, as the same number. *)
Lemma int_float (s : string) (c : Z) :
  int s = Some c ->
  exists (neg : bool) (v : Z),
    0 <= v /\ c = (if neg then - v else v) /\
    float_of_str s = Some (round_decimal neg v 0).
Proof.
  unfold int, float_of_str.
  destruct (sign (strip (list_ascii_of_string s))) as [neg l].
  destruct (digitpart l) as [[[v n] r]|] eqn:Hd; [|discriminate].
  destruct r; [|discriminate].
  destruct (max_str_digits <? n); [discriminate|]. intros [= <-].
  exists neg, v.
  assert (Hv : 0 <= v).
  { unfold digitpart in Hd. destruct l as [|c l']; [discriminate|].
    destruct (digit_val c) as [d|] eqn:Hc; [|discriminate].
    injection Hd as Hd.
    pose proof (digitpart_tail_nonneg (length l') l' d 1 (le_n _)
                  (proj1 (digit_val_range c d Hc))) as Hn.
    now rewrite Hd in Hn. }
  split; [exact Hv|]. split; [reflexivity|].
  assert (Hw : forall t,
             String.eqb (string_of_list_ascii (map lower l))
               (String "n" t) = false /\
             String.eqb (string_of_list_ascii (map lower l))
               (String "i" t) = false).
  { intros t. unfold digitpart in Hd. destruct l as [|c l']; [discriminate|].
    destruct (digit_val c) as [d|] eqn:Hc; [|discriminate].
    destruct (digit_not_letter c d Hc) as [Hn Hi].
    simpl. now rewrite Hn, Hi. }
  rewrite (proj1 (Hw _)), (proj2 (Hw "nf")), (proj2 (Hw "nfinity")). simpl.
  unfold floatnumber, number. now rewrite Hd.
Qed.

(** X12: every string [repr_int] accepts, [repr_float] accepts as well. *)
Theorem integer_strings_are_float_strings (val : string) :
  repr_int val = true -> repr_float val = true.
Proof.
  unfold repr_int, repr_float.
  destruct (int val) as [c|] eqn:Hint; [|discriminate]. intros _.
  destruct (int_float val c Hint) as (neg & v & _ & _ & ->). reflexivity.
Qed.

Lemma integer_strings_are_float_strings_witness :
  repr_float " -1_000 " = true.
Proof.
  apply (integer_strings_are_float_strings " -1_000 "). reflexivity.
Defined.

(** An integer in 0..3 is below 88 as a float. *)
Lemma small_integer_out_of_range (s : string) (c : Z) (w : world) :
  int s = Some c -> 0 <= c <= 3 -> fst (frequency s w) = Ret false.
Proof.
  intros Hint Hc. rewrite frequency_cases.
  destruct (int_float s c Hint) as (neg & v & Hv & Hcv & Hf).
  rewrite Hf. subst c.
  assert (Hcases : v = 0 \/ v = 1 \/ v = 2 \/ v = 3)
    by (destruct neg; lia).
  destruct neg, Hcases as [-> | [-> | [-> | ->]]]; reflexivity.
Qed.

(** X13: no token passes both the frequency check and the channel check,
    or both the frequency check and the log-level check.  So [-c] or [-l]
    standing directly before the frequency, which then is its argument
    too, makes [process] return HALT once the loop gets there. *)
Theorem flag_before_frequency_halts
    (isdir : string -> bool) (args : list string) (w w1 w2 : world)
    (ftok flag : string) (i : nat) :
  has_help args = false ->
  last args = Some ftok -> frequency ftok w = (Ret true, w1) ->
  args !! i = Some flag -> flag = "-c" \/ flag = "-l" ->
  (i + 2 = length args)%nat ->
  scan isdir args (seq 0 i) w1 = (Ret None, w2) ->
  fst (channel ftok w2) = Ret false /\ fst (log ftok w2) = Ret false /\
  fst (process isdir args w) = Ret HALT.
Proof.
  intros Hhelp Hlast Hfreq Hi Hflag Hlen Hpre.
  assert (Hchan : fst (channel ftok w2) = Ret false).
  { rewrite channel_cases. destruct (int ftok) as [c|] eqn:Hint; [|reflexivity].
    destruct (Z.leb_spec 0 c), (Z.leb_spec c 3); try reflexivity.
    pose proof (small_integer_out_of_range ftok c w Hint ltac:(lia)) as Hx.
    rewrite Hfreq in Hx. discriminate. }
  assert (Hlog : fst (log ftok w2) = Ret false).
  { rewrite log_cases. destruct (int ftok) as [c|] eqn:Hint; [|reflexivity].
    destruct (Z.leb_spec 1 c), (Z.leb_spec c 3); try reflexivity.
    pose proof (small_integer_out_of_range ftok c w Hint ltac:(lia)) as Hx.
    rewrite Hfreq in Hx. discriminate. }
  split; [exact Hchan|]. split; [exact Hlog|].
  assert (Hi1 : args !! (i + 1)%nat = Some ftok).
  { rewrite last_lookup in Hlast. rewrite <- Hlast. f_equal. lia. }
  assert (Hstep : exists w3, scan_step isdir args i w2 = (Ret (Some HALT), w3)).
  { destruct Hflag as [-> | ->].
    - rewrite (scan_step_flag isdir args i "-c" ftok channel w2 Hi Hi1
                 eq_refl eq_refl).
      destruct (handlers_return isdir "-c" channel eq_refl ftok w2)
        as (b & w3 & Hrun).
      rewrite Hrun in Hchan |- *. injection Hchan as ->. now exists w3.
    - rewrite (scan_step_flag isdir args i "-l" ftok log w2 Hi Hi1
                 eq_refl eq_refl).
      destruct (handlers_return isdir "-l" log eq_refl ftok w2)
        as (b & w3 & Hrun).
      rewrite Hrun in Hlog |- *. injection Hlog as ->. now exists w3. }
  destruct Hstep as [w3 Hstep].
  rewrite (process_stops_at isdir args w w1 w2 w3 ftok i (Ret (Some HALT))
             Hhelp ltac:(lia) Hlast Hfreq ltac:(lia) Hpre Hstep
             ltac:(discriminate)).
  reflexivity.
Qed.

Lemma flag_before_frequency_halts_witness :
  fst (process Sample.isdir ["prog"; "-a"; "1"; "-l"; "100"] Sample.start)
    = Ret HALT.
Proof.
  apply (flag_before_frequency_halts Sample.isdir
           ["prog"; "-a"; "1"; "-l"; "100"] Sample.start
           (snd (frequency "100" Sample.start))
           (set_art true (snd (frequency "100" Sample.start)))
           "100" "-l" 3).
  - reflexivity.
  - reflexivity.
  - reflexivity.
  - reflexivity.
  - now right.
  - reflexivity.
  - reflexivity.
Defined.
